(** * live-parking-norwich: the fetch / parse / transform pipeline

    A shallow embedding of [live_parking_norwich.py] and of the transformer of
    [helpers.py], and the properties of the pipeline stated over it.

    Python values are modelled as follows.
    - [str] is [string]: a character of the [string] stands for the code
      point of the same number, so the strings are those of code points
      below 256 (ASCII and Latin-1); the class [\w] of the [re] module on
      these code points is [Re.is_word]. A literal of this file is the
      [str] of the same spelling when its characters are ASCII; elsewhere
      a character is given by its number.
    - [int] is [Z] (Python integers do not wrap).
    - [None] in a place where a [str] is expected is [option string].
    - an exception is a record of its class name, its [str()] and the
      entries of its traceback; code that may raise returns a [result].
    - the standard-library functions whose results depend on data outside the
      repository ([ElementTree.fromstring], [datetime.strptime], [int],
      [float], [format_tb]) are the fields of the class [Runtime]; the three
      constants of the absent [config] module are the fields of [Config]; the
      network is an argument of [refresh]. *)

From Stdlib Require Import Bool Arith NArith ZArith Lia List Ascii String.
Import ListNotations.

Local Open Scope string_scope.
Local Open Scope list_scope.

(* ================================================================== *)
(** * Exceptions and tracebacks *)

(** One entry of a traceback: the function being executed and the line of the
    statement that was running when the exception went through it. *)
Record frame := Frame { fr_func : string; fr_line : nat }.

(** An instance of a subclass of [Exception]: [exn_type] is
    [type(e).__name__], [exn_str] is [str(e)], [exn_tb] is [e.__traceback__],
    outermost entry first. The entries are those of the functions of the
    repository; entries of frames inside the standard library are present
    only in the exceptions that the runtime or the network hands in. *)
Record exn := Exn { exn_type : string; exn_str : string; exn_tb : list frame }.

Inductive result (A : Type) : Type :=
| Ok (a : A)
| Raise (e : exn).
Arguments Ok {A} a.
Arguments Raise {A} e.

Definition bind {A B} (m : result A) (k : A -> result B) : result B :=
  match m with
  | Ok a => k a
  | Raise e => Raise e
  end.

Notation "x <- m ;; k" := (bind m (fun x => k))
  (at level 61, m at next level, right associativity).
Notation "' p <- m ;; k" := (bind m (fun x => match x with p => k end))
  (at level 61, p pattern, m at next level, right associativity).

(** [raise ty msg]: a statement raises a new exception; its traceback is
    filled in by the frames it passes through. *)
Definition raise {A} (ty msg : string) : result A := Raise (Exn ty msg []).

(** [line fn n m]: the statement at line [n] of function [fn] evaluates [m];
    an exception that leaves it gets the entry [fn], [n] in front of the
    entries of the calls below. *)
Definition line {A} (fn : string) (n : nat) (m : result A) : result A :=
  match m with
  | Ok a => Ok a
  | Raise e => Raise (Exn (exn_type e) (exn_str e) (Frame fn n :: exn_tb e))
  end.

(** A [for] loop whose body updates an accumulator and may raise: the first
    exception ends the loop. *)
Fixpoint for_each {A S} (l : list A) (body : A -> S -> result S) (acc : S)
  : result S :=
  match l with
  | [] => Ok acc
  | x :: l' => acc' <- body x acc ;; for_each l' body acc'
  end.

(* ================================================================== *)
(** * [str] and [list] operations *)

(** [s.split(sep)] for a separator of one character. *)
Fixpoint split (sep : ascii) (s : string) : list string :=
  match s with
  | EmptyString => [EmptyString]
  | String c s' =>
      if Ascii.eqb c sep then EmptyString :: split sep s'
      else match split sep s' with
           | part :: parts => String c part :: parts
           | [] => [String c EmptyString]
           end
  end.

(** [v.split(sep)] where [v] may be [None]. *)
Definition split_ (v : option string) (sep : ascii) : result (list string) :=
  match v with
  | Some s => Ok (split sep s)
  | None => raise "AttributeError" "'NoneType' object has no attribute 'split'"
  end.

(** [l[i]] for a non-negative index [i]. *)
Definition index {A} (l : list A) (i : nat) : result A :=
  match nth_error l i with
  | Some x => Ok x
  | None => raise "IndexError" "list index out of range"
  end.

(* ================================================================== *)
(** * The part of [re] that the program uses *)

Module Re.

(** [\w] of a [str] pattern on the code points below 256: the characters
    that are alphanumeric in Unicode and the underscore. These are the
    digits, the letters and the underscore of ASCII, and in Latin-1 the
    ordinal indicators (170, 186), the superscript digits (178, 179, 185),
    the micro sign (181), the fractions (188 to 190) and the letters (192 to
    255 without the multiplication sign 215 and the division sign 247). *)
Definition is_word (c : ascii) : bool :=
  let n := N_of_ascii c in
  ((48 <=? n) && (n <=? 57) || (65 <=? n) && (n <=? 90)
   || (97 <=? n) && (n <=? 122) || (n =? 95)
   || (n =? 170) || (178 <=? n) && (n <=? 179) || (n =? 181)
   || (185 <=? n) && (n <=? 186) || (188 <=? n) && (n <=? 190)
   || (192 <=? n) && (n <=? 214) || (216 <=? n) && (n <=? 246)
   || (248 <=? n))%N.

Definition is_word_opt (c : option ascii) : bool :=
  match c with
  | Some c => is_word c
  | None => false
  end.

Definition first_char (s : string) : option ascii :=
  match s with
  | EmptyString => None
  | String c _ => Some c
  end.

(** The pattern constructs of the two expressions of the source. *)
Inductive regex :=
| Eps                      (* the empty pattern *)
| Chr (c : ascii)          (* a literal character *)
| Cat (r1 r2 : regex)      (* r1 r2 *)
| Opt (r : regex)          (* (?:r)? , greedy *)
| WordB.                   (* \b *)

(** A literal of several characters. *)
Fixpoint Lit (s : string) : regex :=
  match s with
  | EmptyString => Eps
  | String c s' => Cat (Chr c) (Lit s')
  end.

(** Backtracking matcher. [prev] is the character before the current
    position, [s] the text from the current position on, [n] the number of
    characters consumed so far; [k] is what remains to be matched. The
    result is the length of the first match in the order of preference of
    the engine: for [Opt] the branch that takes [r] is tried first. *)
Fixpoint rmatch (r : regex) (prev : option ascii) (s : string) (n : nat)
  (k : option ascii -> string -> nat -> option nat) : option nat :=
  match r with
  | Eps => k prev s n
  | Chr c =>
      match s with
      | String c' s' => if Ascii.eqb c' c then k (Some c') s' (S n) else None
      | EmptyString => None
      end
  | Cat r1 r2 => rmatch r1 prev s n (fun p s' n' => rmatch r2 p s' n' k)
  | Opt r1 =>
      match rmatch r1 prev s n k with
      | Some m => Some m
      | None => k prev s n
      end
  | WordB =>
      if xorb (is_word_opt prev) (is_word_opt (first_char s))
      then k prev s n else None
  end.

(** [pattern.match] at a position: the length of the match, if any. *)
Definition match_at (r : regex) (prev : option ascii) (s : string)
  : option nat :=
  rmatch r prev s 0 (fun _ _ n => Some n).

(** [re.sub(r, repl, s)], scanning from left to right. [skip] counts the
    characters of a match that are still to be passed over. A match is
    replaced by [repl] and the scan resumes after it; where there is no
    match the character is copied. Both patterns of the source consume at
    least three characters ([match_at_norwich], [match_at_norw] below), so
    the rule of [re.sub] for empty matches is never used and is not
    modelled: a match of length 0 is treated as no match. *)
Fixpoint sub_from (r : regex) (repl : string) (skip : nat)
  (prev : option ascii) (s : string) : string :=
  match s with
  | EmptyString => EmptyString
  | String c s' =>
      match skip with
      | S skip' => sub_from r repl skip' (Some c) s'
      | O =>
          match match_at r prev s with
          | Some (S len) => repl ++ sub_from r repl len (Some c) s'
          | _ => String c (sub_from r repl 0 (Some c) s')
          end
      end
  end.

Definition sub (r : regex) (repl : string) (s : string) : string :=
  sub_from r repl 0 None s.

End Re.

(** [r'Nor(?:wic)?\b'] *)
Definition re_norwich : Re.regex :=
  Re.Cat (Re.Lit "Nor") (Re.Cat (Re.Opt (Re.Lit "wic")) Re.WordB).

(** [r'NORW\b'] *)
Definition re_norw : Re.regex :=
  Re.Cat (Re.Lit "NORW") Re.WordB.

(** The two substitutions of the transformer, in the order of the source. *)
Definition repair_name (name : string) : string :=
  let name := Re.sub re_norwich "Norwich" name in
  let name := Re.sub re_norw "NORWICH" name in
  name.

(* ================================================================== *)
(** * The part of [xml.etree.ElementTree] that the program uses *)

Module ElementTree.

(** An element as [fromstring] builds it: the tag in the form [{uri}local],
    the text before the first child ([None] when there is none) and the
    children in document order. Attributes and tails are not read by the
    program. *)
#[warnings="-register-all"]
Inductive element :=
| Element (tag : string) (text : option string) (children : list element).

Definition tag (e : element) : string :=
  match e with Element t _ _ => t end.

Definition text (e : element) : option string :=
  match e with Element _ t _ => t end.

Definition children (e : element) : list element :=
  match e with Element _ _ cs => cs end.

(** [e.iter()]: the element and everything below it, in document order. *)
Fixpoint iter (e : element) : list element :=
  match e with
  | Element _ _ cs => e :: flat_map iter cs
  end.

(** What is strictly below [e], in document order. *)
Definition descendants (e : element) : list element :=
  flat_map iter (children e).

(** The prefix-to-URI mapping handed to [find] and [findall]. *)
Definition namespaces := list (string * string).

Fixpoint lookup (prefix : string) (ns : namespaces) : option string :=
  match ns with
  | [] => None
  | (p, uri) :: ns' => if String.eqb p prefix then Some uri else lookup prefix ns'
  end.

(** The steps of the paths of the source, as [ElementPath] tokenizes them:
    [.] is [Self], [//p:t] is [Descendant p t], [p:t] is [Child p t]. *)
Inductive step :=
| Self
| Descendant (prefix local : string)
| Child (prefix local : string).

(** The syntax error for a prefix that is not in the mapping is raised
    inside [xml/etree/ElementPath.py], by the tokenizer. [prefix_error_tb fn
    path] stands for the traceback entries that the library leaves in it
    when [fn], which is [find] or [findall], is called with [path]: the
    functions of the library that are running then and their lines, which
    depend on the version of the library. *)
Class ElementPathErrors := {
  prefix_error_tb : string -> list step -> list frame;
}.

(** A tag [prefix:local] of a path becomes [{uri}local]; [tb] is the
    traceback of the error for a prefix that is not there. *)
Definition qualify (tb : list frame) (ns : namespaces)
  (prefix local : string) : result string :=
  match lookup prefix ns with
  | Some uri => Ok ("{" ++ uri ++ "}" ++ local)%string
  | None =>
      Raise (Exn "SyntaxError"
               ("prefix '" ++ prefix ++ "' not found in prefix map")%string
               tb)
  end.

Definition with_tag (t : string) (l : list element) : list element :=
  filter (fun e => String.eqb (tag e) t) l.

(** One selector of [ElementPath.iterfind] applied to the elements selected
    so far. *)
Definition select (tb : list frame) (ns : namespaces) (st : step)
  (sel : list element) : result (list element) :=
  match st with
  | Self => Ok sel
  | Descendant p l =>
      t <- qualify tb ns p l ;;
      Ok (flat_map (fun e => with_tag t (descendants e)) sel)
  | Child p l =>
      t <- qualify tb ns p l ;;
      Ok (flat_map (fun e => with_tag t (children e)) sel)
  end.

(** [ElementPath.iterfind] from the elements selected so far. *)
Fixpoint iterfind_from (tb : list frame) (ns : namespaces)
  (path : list step) (sel : list element) : result (list element) :=
  match path with
  | [] => Ok sel
  | st :: path' =>
      sel' <- select tb ns st sel ;; iterfind_from tb ns path' sel'
  end.

(** [e.findall(path, namespaces)]: all that [iterfind] selects. *)
Definition findall {pe : ElementPathErrors} (e : element) (path : list step)
  (ns : namespaces) : result (list element) :=
  iterfind_from (prefix_error_tb "findall" path) ns path [e].

(** [e.find(path, namespaces)]: the first element that [iterfind] selects,
    or [None]. *)
Definition find {pe : ElementPathErrors} (e : element) (path : list step)
  (ns : namespaces) : result (option element) :=
  sel <- iterfind_from (prefix_error_tb "find" path) ns path [e] ;;
  Ok (hd_error sel).

(** [x.text] where [x] is the result of a [find]. *)
Definition text_of (x : option element) : result (option string) :=
  match x with
  | Some e => Ok (text e)
  | None => raise "AttributeError" "'NoneType' object has no attribute 'text'"
  end.

End ElementTree.
Import ElementTree.

(* ================================================================== *)
(** * What the program takes from outside *)

(** The standard-library functions whose results are not computed here. *)
Class Runtime := {
  (** Python [float] values *)
  float : Type;
  (** [datetime] values *)
  datetime : Type;
  (** [ElementTree.fromstring(xml_data)] *)
  fromstring : string -> result element;
  (** [datetime.strptime(s, fmt)] for a [str] [s] *)
  strptime_str : string -> string -> result datetime;
  (** [int(s)] for a [str] [s] *)
  int_str : string -> result Z;
  (** [float(s)] for a [str] [s] *)
  float_str : string -> result float;
  (** the text [format_tb] makes of one traceback entry *)
  format_entry : frame -> string;
  (** the traceback entries of the errors of [ElementPath] *)
  path_errors :: ElementPathErrors;
}.

(** The three constants that the source reads from the module [config],
    which is not among the sources: the feed URL, the namespace mapping and
    the format of the publication time. *)
Class Config := {
  XML_URL : string;
  XML_NAMESPACE : namespaces;
  DATE_FORMAT : string;
}.

(** What [urlopen(url)] followed by [response.read()] does at the time of a
    call. *)
Inductive fetched :=
| Fetched (body : string)          (* the body of the response *)
| UrlError (reason : string)       (* URLError or a subclass; [str(e.reason)] *)
| OpenFailed (e : exn)             (* urlopen raised something else *)
| ReadFailed (e : exn).            (* response.read() raised something else *)

Section Program.

Context {rt : Runtime} {cfg : Config}.

(** [datetime.strptime(v, fmt)] where [v] may be [None]. *)
Definition strptime (v : option string) (fmt : string) : result datetime :=
  match v with
  | Some s => strptime_str s fmt
  | None => raise "TypeError" "strptime() argument 1 must be str, not None"
  end.

(** [int(v)] where [v] may be [None]. *)
Definition int (v : option string) : result Z :=
  match v with
  | Some s => int_str s
  | None =>
      raise "TypeError"
        "int() argument must be a string, a bytes-like object or a real number, not 'NoneType'"
  end.

(** [float(v)] where [v] may be [None]. *)
Definition float_ (v : option string) : result float :=
  match v with
  | Some s => float_str s
  | None =>
      raise "TypeError"
        "float() argument must be a string or a real number, not 'NoneType'"
  end.

(** [format_tb(tb)]: one string for each entry. *)
Definition format_tb (tb : list frame) : list string := map format_entry tb.

(* ------------------------------------------------------------------ *)
(** ** structures *)

(** Modelled from the spec: the module [structures] is not among the sources.
    [RawCarPark] is the named tuple that the parser fills, with its fields in
    the order in which the source passes them. The two text fields hold what
    [.text] returned, which is [None] for an element without text. *)
Record RawCarPark := mkRawCarPark {
  identity : option string;
  status : option string;
  occupied_spaces : Z;
  total_capacity : Z;
  occupancy : float;
}.

(** Modelled from the spec: the module [structures] is not among the sources.
    [CarPark] is the output record, with its fields in the order in which the
    source passes them. *)
Record CarPark := mkCarPark {
  code : string;
  name : string;
  cp_status : option string;
  cp_occupied_spaces : Z;
  remaining_spaces : Z;
  cp_total_capacity : Z;
  cp_occupancy : float;
}.

(* ------------------------------------------------------------------ *)
(** ** live_parking_norwich.py *)

(** The value of the attribute [traceback]: [None] after [__init__], a [str]
    after a success, the list of [format_tb] after a failure. *)
Inductive tb_value :=
| TbNone
| TbStr (s : string)
| TbList (l : list string).

(** The items that iterating over the value yields; a [str] yields its
    characters, each as a [str], and [None] cannot be iterated. *)
Definition tb_items (v : tb_value) : option (list string) :=
  match v with
  | TbNone => None
  | TbStr s =>
      Some (map (fun c => String c EmptyString) (list_ascii_of_string s))
  | TbList l => Some l
  end.

(** The private attributes of an instance. *)
Record LiveParkingNorwich := mkSelf {
  url : string;
  namespace : namespaces;
  last_updated : option datetime;
  success : option bool;
  error_message : option string;
  traceback : tb_value;
}.

(** [__init__] *)
Definition init : LiveParkingNorwich :=
  {| url := XML_URL;
     namespace := XML_NAMESPACE;
     last_updated := None;
     success := None;
     error_message := None;
     traceback := TbNone |}.

(** A [URLError] is raised again with the URL and the reason in its text;
    any other exception goes through. *)
Definition _retrieve_xml_data (net : string -> fetched) (url : string)
  : result string :=
  let at_ := @line string "_retrieve_xml_data" in
  match net url with
  | Fetched xml_data => Ok xml_data
  | UrlError reason =>
      at_ 94 (raise "URLError"
                ("<urlopen error Failed to retrieve XML data from "
                   ++ url ++ ": " ++ reason ++ ">")%string)
  | OpenFailed e => at_ 90 (Raise e)
  | ReadFailed e => at_ 91 (Raise e)
  end.

(** The paths of [_parse_xml_data]. *)
Definition path_publication_time : list step :=
  [Self; Descendant "d2lm" "publicationTime"].
Definition path_situation : list step :=
  [Self; Descendant "d2lm" "payloadPublication"; Child "d2lm" "situation"].
Definition path_situation_record : list step := [Child "d2lm" "situationRecord"].
Definition path_identity : list step := [Child "d2lm" "carParkIdentity"].
Definition path_status : list step := [Child "d2lm" "carParkStatus"].
Definition path_occupied : list step := [Child "d2lm" "occupiedSpaces"].
Definition path_capacity : list step := [Child "d2lm" "totalCapacity"].
Definition path_occupancy : list step := [Child "d2lm" "carParkOccupancy"].

(** The body of the inner loop of [_parse_xml_data], lines 121 to 127. *)
Definition parse_record (namespace : namespaces) (situation_record : element)
  (car_park_data : list RawCarPark) : result (list RawCarPark) :=
  let at_ := fun A => @line A "_parse_xml_data" in
  identity <- at_ _ 121
    (x <- find situation_record path_identity namespace ;; text_of x) ;;
  status <- at_ _ 122
    (x <- find situation_record path_status namespace ;; text_of x) ;;
  occupied_spaces <- at_ _ 123
    (x <- find situation_record path_occupied namespace ;;
     t <- text_of x ;; int t) ;;
  total_capacity <- at_ _ 124
    (x <- find situation_record path_capacity namespace ;;
     t <- text_of x ;; int t) ;;
  occupancy <- at_ _ 125
    (x <- find situation_record path_occupancy namespace ;;
     t <- text_of x ;; float_ t) ;;
  Ok (car_park_data
        ++ [mkRawCarPark identity status occupied_spaces total_capacity
              occupancy]).

Definition _parse_xml_data (xml_data : string) (namespace : namespaces)
  : result (list RawCarPark * datetime) :=
  let at_ := fun A => @line A "_parse_xml_data" in
  root <- at_ _ 108 (fromstring xml_data) ;;
  publication_time <- at_ _ 111
    (x <- find root path_publication_time namespace ;; text_of x) ;;
  last_updated <- at_ _ 112 (strptime publication_time DATE_FORMAT) ;;
  situations <- at_ _ 117 (findall root path_situation namespace) ;;
  car_park_data <-
    for_each situations
      (fun situation car_park_data =>
         records <- at_ _ 118
           (findall situation path_situation_record namespace) ;;
         for_each records (parse_record namespace) car_park_data)
      [] ;;
  Ok (car_park_data, last_updated).

(** The body of the loop of the transformer; [fn] and the three line numbers
    are those of the copy that runs it. *)
Definition transform_one (fn : string) (l_split l_code l_name : nat)
  (data : RawCarPark) (car_parks : list CarPark) : result (list CarPark) :=
  identity_parts <- line fn l_split (split_ (identity data) ":") ;;
  code <- line fn l_code (index identity_parts 1) ;;
  name <- line fn l_name (index identity_parts 0) ;;
  let name := Re.sub re_norwich "Norwich" name in
  let name := Re.sub re_norw "NORWICH" name in
  let remaining_spaces := (total_capacity data - occupied_spaces data)%Z in
  Ok (car_parks
        ++ [mkCarPark code name (status data) (occupied_spaces data)
              remaining_spaces (total_capacity data) (occupancy data)]).

Definition _transform_data_to_car_parks (car_park_data : list RawCarPark)
  : result (list CarPark) :=
  for_each car_park_data
    (transform_one "_transform_data_to_car_parks" 147 148 149) [].

(** The [except Exception as e] clause of [refresh]. *)
Definition on_exception (self : LiveParkingNorwich) (e : exn)
  : list CarPark * LiveParkingNorwich :=
  ([],
   {| url := url self;
      namespace := namespace self;
      last_updated := last_updated self;
      success := Some false;
      error_message := Some (exn_type e ++ ": " ++ exn_str e)%string;
      traceback := TbList (format_tb (exn_tb e)) |}).

(** [refresh]: the list it returns and the instance after the call. [net] is
    the network at the time of the call. *)
Definition refresh (net : string -> fetched) (self : LiveParkingNorwich)
  : list CarPark * LiveParkingNorwich :=
  match line "refresh" 174 (_retrieve_xml_data net (url self)) with
  | Raise e => on_exception self e
  | Ok xml =>
      match line "refresh" 177 (_parse_xml_data xml (namespace self)) with
      | Raise e => on_exception self e
      | Ok (car_park_data, publication_time) =>
          let self :=
            {| url := url self;
               namespace := namespace self;
               last_updated := Some publication_time;
               success := success self;
               error_message := error_message self;
               traceback := traceback self |} in
          match line "refresh" 180
                  (_transform_data_to_car_parks car_park_data) with
          | Raise e => on_exception self e
          | Ok car_parks =>
              (car_parks,
               {| url := url self;
                  namespace := namespace self;
                  last_updated := last_updated self;
                  success := Some true;
                  error_message := Some "";
                  traceback := TbStr "" |})
          end
      end
  end.

(* ------------------------------------------------------------------ *)
(** ** helpers.py *)

(** [CarParkTransformer.transform_data_to_car_parks] *)
Definition transform_data_to_car_parks (car_park_data : list RawCarPark)
  : result (list CarPark) :=
  for_each car_park_data
    (transform_one "transform_data_to_car_parks" 93 94 95) [].

End Program.

(* ================================================================== *)
(** * Notions used to state the properties *)

(** [strip p s]: what follows [p] when [s] starts with [p]. *)
Fixpoint strip (p s : string) : option string :=
  match p with
  | EmptyString => Some s
  | String c p' =>
      match s with
      | String c' s' => if Ascii.eqb c' c then strip p' s' else None
      | EmptyString => None
      end
  end.

(** [drop n s]: [s[n:]]. *)
Fixpoint drop (n : nat) (s : string) : string :=
  match n, s with
  | S n', String _ s' => drop n' s'
  | _, _ => s
  end.

(** A word boundary directly after a word character: the text that follows
    is empty or starts with a character outside [\w]. *)
Definition boundary (t : string) : bool :=
  negb (Re.is_word_opt (Re.first_char t)).

(** The length of an occurrence of ["Norwic"] or ["Nor"] at the start of
    [s] that is followed by a word boundary, the longer one first. *)
Definition norwich_len (s : string) : option nat :=
  match strip "Nor" s with
  | Some t =>
      match strip "wic" t with
      | Some u => if boundary u then Some 6 else if boundary t then Some 3 else None
      | None => if boundary t then Some 3 else None
      end
  | None => None
  end.

(** The length of an occurrence of ["NORW"] at the start of [s] that is
    followed by a word boundary. *)
Definition norw_len (s : string) : option nat :=
  match strip "NORW" s with
  | Some t => if boundary t then Some 4 else None
  | None => None
  end.

(** No suffix of [s] starts with an occurrence that [m] recognises. *)
Fixpoint nowhere (m : string -> option nat) (s : string) : Prop :=
  match s with
  | EmptyString => True
  | String _ t => m s = None /\ nowhere m t
  end.

(** [s] ends with [p]. *)
Definition ends_with (p s : string) : bool :=
  let n := String.length s - String.length p in
  String.eqb (drop n s) p && Nat.leb (String.length p) (String.length s).

(** The name repair read from the words of the specification: only an
    occurrence at the very end of the name is replaced, first ["Norwic"] or
    ["Nor"], then ["NORW"]. *)
Definition repair_trailing (name : string) : string :=
  let cut k s := substring 0 (String.length s - k) s in
  let name :=
    if ends_with "Norwic" name then (cut 6 name ++ "Norwich")%string
    else if ends_with "Nor" name then (cut 3 name ++ "Norwich")%string
    else name in
  if ends_with "NORW" name then (cut 4 name ++ "NORWICH")%string else name.

(** ** Hand-built feeds *)

Definition qname (uri local : string) : string :=
  ("{" ++ uri ++ "}" ++ local)%string.

(** [<local>txt</local>] *)
Definition leaf (uri local txt : string) : element :=
  Element (qname uri local) (Some txt) [].

(** The texts of the five children of a situationRecord. *)
Record record_text := mkRecordText {
  t_identity : string;
  t_status : string;
  t_occupied : string;
  t_capacity : string;
  t_occupancy : string;
}.

Definition record_element (uri : string) (r : record_text) : element :=
  Element (qname uri "situationRecord") None
    [ leaf uri "carParkIdentity" (t_identity r);
      leaf uri "carParkStatus" (t_status r);
      leaf uri "occupiedSpaces" (t_occupied r);
      leaf uri "totalCapacity" (t_capacity r);
      leaf uri "carParkOccupancy" (t_occupancy r) ].

(** A situation with the given children. *)
Definition situation_element (uri : string) (records : list element) : element :=
  Element (qname uri "situation") None records.

(** The minimal feed: the root, its payloadPublication, the publication time
    and the situations. *)
Definition feed_element (uri pub : string) (situations : list (list element))
  : element :=
  Element (qname uri "d2LogicalModel") None
    [ Element (qname uri "payloadPublication") None
        (leaf uri "publicationTime" pub
           :: map (situation_element uri) situations) ].

(** [r] is a situationRecord of the feed [root] that the parser visits: a
    child tagged situationRecord of a child tagged situation of an element
    tagged payloadPublication below the root. *)
Definition visited_record (uri : string) (root r : element) : Prop :=
  exists pp s,
    In pp (descendants root) /\ tag pp = qname uri "payloadPublication" /\
    In s (children pp) /\ tag s = qname uri "situation" /\
    In r (children s) /\ tag r = qname uri "situationRecord".

(** The first child of [e] tagged [t], if any. *)
Definition first_child (t : string) (e : element) : option element :=
  hd_error (with_tag t (children e)).

(** The two substitutions of the transformer. *)
Definition sub_norwich : string -> string := Re.sub re_norwich "Norwich".
Definition sub_norw : string -> string := Re.sub re_norw "NORWICH".

(** [p] has no [N]. *)
Fixpoint free_of_N (p : string) : bool :=
  match p with
  | EmptyString => true
  | String c p' => negb (Ascii.eqb c "N") && free_of_N p'
  end.

(** [s] has no colon. *)
Fixpoint colon_free (s : string) : bool :=
  match s with
  | EmptyString => true
  | String c t => negb (Ascii.eqb c ":") && colon_free t
  end.

(** [a] and [b] are the first and the second of the parts of [s] that the
    colons separate. *)
Definition first_two_parts (s a b : string) : Prop :=
  colon_free a = true /\ colon_free b = true /\
  exists rest, s = (a ++ ":" ++ b ++ rest)%string /\
               (rest = "" \/ exists rest', rest = (":" ++ rest')%string).

Section Notions.

Context {rt : Runtime} {cfg : Config}.

(** The feed built from the texts of its records, situation by situation. *)
Definition feed_of (uri pub : string) (sits : list (list record_text))
  : element :=
  feed_element uri pub (map (map (record_element uri)) sits).

(** The raw record [raw] holds what the texts [r] say. *)
Definition record_matches (r : record_text) (raw : RawCarPark) : Prop :=
  identity raw = Some (t_identity r) /\
  status raw = Some (t_status r) /\
  int_str (t_occupied r) = Ok (occupied_spaces raw) /\
  int_str (t_capacity r) = Ok (total_capacity raw) /\
  float_str (t_occupancy r) = Ok (occupancy raw).

(** The three numeric texts of [r] are valid. *)
Definition numeric (r : record_text) : Prop :=
  (exists n, int_str (t_occupied r) = Ok n) /\
  (exists n, int_str (t_capacity r) = Ok n) /\
  (exists x, float_str (t_occupancy r) = Ok x).

(** The record [r] has no child tagged [field]. *)
Definition missing (uri : string) (r : element) (field : string) : Prop :=
  first_child (qname uri field) r = None.

(** The text of the first child of [r] tagged [field] is absent or is not
    accepted by the conversion [conv]. *)
Definition unreadable {A} (conv : option string -> result A) (uri : string)
  (r : element) (field : string) : Prop :=
  exists c e, first_child (qname uri field) r = Some c /\
              conv (text c) = Raise e.

(** A record that lacks one of the five children, or one of whose three
    numbers cannot be read. *)
Definition defective (uri : string) (r : element) : Prop :=
  missing uri r "carParkIdentity" \/ missing uri r "carParkStatus" \/
  missing uri r "occupiedSpaces" \/ missing uri r "totalCapacity" \/
  missing uri r "carParkOccupancy" \/
  unreadable int uri r "occupiedSpaces" \/
  unreadable int uri r "totalCapacity" \/
  unreadable float_ uri r "carParkOccupancy".

(** The output record [c] is what the transformer makes of [r]. *)
Definition transformed (r : RawCarPark) (c : CarPark) : Prop :=
  exists s a b,
    identity r = Some s /\ first_two_parts s a b /\
    code c = b /\
    name c = repair_name a /\
    cp_status c = status r /\
    cp_occupied_spaces c = occupied_spaces r /\
    cp_total_capacity c = total_capacity r /\
    cp_occupancy c = occupancy r /\
    remaining_spaces c = (total_capacity r - occupied_spaces r)%Z.

(** The fetch / parse / transform chain of a call of [refresh] raises [e]. *)
Definition chain_raises (net : string -> fetched) (self : LiveParkingNorwich)
  (e : exn) : Prop :=
  line "refresh" 174 (_retrieve_xml_data net (url self)) = Raise e \/
  (exists xml,
     _retrieve_xml_data net (url self) = Ok xml /\
     line "refresh" 177 (_parse_xml_data xml (namespace self)) = Raise e) \/
  (exists xml car_park_data publication_time,
     _retrieve_xml_data net (url self) = Ok xml /\
     _parse_xml_data xml (namespace self)
       = Ok (car_park_data, publication_time) /\
     line "refresh" 180 (_transform_data_to_car_parks car_park_data)
       = Raise e).

End Notions.

(** ** A runtime for the examples *)

Definition is_digit (c : ascii) : bool :=
  let n := N_of_ascii c in ((48 <=? n) && (n <=? 57))%N.

Fixpoint digits_value (acc : Z) (s : string) : option Z :=
  match s with
  | EmptyString => Some acc
  | String c s' =>
      if is_digit c
      then digits_value (10 * acc + Z.of_N (N_of_ascii c) - 48)%Z s'
      else None
  end.

(** [int] on the literals made of decimal digits only. *)
Definition demo_int (s : string) : result Z :=
  match s with
  | EmptyString =>
      raise "ValueError" "invalid literal for int() with base 10: ''"
  | _ =>
      match digits_value 0 s with
      | Some z => Ok z
      | None =>
          raise "ValueError"
            ("invalid literal for int() with base 10: '" ++ s ++ "'")%string
      end
  end.

(** A runtime in which the XML parser answers [doc] for the body it is
    given, the numbers are the literals of decimal digits, a float is the
    integer it is written as, a timestamp is any text of 19 characters, a
    traceback entry is shown as the name of its function, and the entries of
    the errors of [ElementPath] are those of one version of the library. *)
Definition demo_runtime (doc : result element) : Runtime :=
  {| float := Z;
     datetime := string;
     fromstring := fun _ => doc;
     strptime_str := fun s fmt =>
       if Nat.eqb (String.length s) 19 then Ok s
       else raise "ValueError"
              ("time data '" ++ s ++ "' does not match format '" ++ fmt ++ "'")%string;
     int_str := demo_int;
     float_str := demo_int;
     format_entry := fr_func;
     path_errors :=
       {| prefix_error_tb := fun fn path =>
            let n := if String.eqb fn "find" then 405 else 411 in
            match path with
            | Self :: _ =>
                [Frame fn n; Frame "iterfind" 384;
                 Frame "prepare_descendant" 185; Frame "xpath_tokenizer" 87]
            | _ =>
                [Frame fn n; Frame "iterfind" 378;
                 Frame "xpath_tokenizer" 87]
            end |} |}.

Definition demo_uri : string := "http://datex2.eu/schema/1_0/1_0".

Definition demo_config : Config :=
  {| XML_URL := "https://example.org/feed.xml";
     XML_NAMESPACE := [("d2lm", demo_uri)];
     DATE_FORMAT := "%Y-%m-%dT%H:%M:%S" |}.

Definition demo_pub : string := "2024-01-01T12:00:00".

Definition demo_record : record_text :=
  {| t_identity := "Harford, Ipswich Road, Nor:CPN0015";
     t_status := "enoughSpacesAvailable";
     t_occupied := "120";
     t_capacity := "500";
     t_occupancy := "24" |}.

Definition demo_record2 : record_text :=
  {| t_identity := "SOME NORW:CPX9";
     t_status := "carParkFull";
     t_occupied := "80";
     t_capacity := "80";
     t_occupancy := "100" |}.

(** A feed of two situations with one record each. *)
Definition demo_feed : element :=
  feed_element demo_uri demo_pub
    [ [record_element demo_uri demo_record];
      [record_element demo_uri demo_record2] ].

(** The same feed, where the second record has no carParkOccupancy. *)
Definition demo_feed_missing : element :=
  feed_element demo_uri demo_pub
    [ [record_element demo_uri demo_record];
      [Element (qname demo_uri "situationRecord") None
         [ leaf demo_uri "carParkIdentity" "SOME NORW:CPX9";
           leaf demo_uri "carParkStatus" "carParkFull";
           leaf demo_uri "occupiedSpaces" "80";
           leaf demo_uri "totalCapacity" "80" ]] ].

(** A feed whose only record has a carParkStatus element without text. *)
Definition demo_feed_no_status_text : element :=
  feed_element demo_uri demo_pub
    [ [Element (qname demo_uri "situationRecord") None
         [ leaf demo_uri "carParkIdentity" "St Andrews:CPN0001";
           Element (qname demo_uri "carParkStatus") None [];
           leaf demo_uri "occupiedSpaces" "10";
           leaf demo_uri "totalCapacity" "40";
           leaf demo_uri "carParkOccupancy" "25" ]] ].

(** A feed whose only record has a carParkIdentity element without text. *)
Definition demo_feed_no_identity_text : element :=
  feed_element demo_uri demo_pub
    [ [Element (qname demo_uri "situationRecord") None
         [ Element (qname demo_uri "carParkIdentity") None [];
           leaf demo_uri "carParkStatus" "carParkFull";
           leaf demo_uri "occupiedSpaces" "10";
           leaf demo_uri "totalCapacity" "40";
           leaf demo_uri "carParkOccupancy" "25" ]] ].

(** A feed whose only record has an identity without a colon. *)
Definition demo_feed_no_colon : element :=
  feed_element demo_uri demo_pub
    [ [record_element demo_uri
         {| t_identity := "NoColonHere"; t_status := "carParkFull";
            t_occupied := "1"; t_capacity := "2"; t_occupancy := "50" |}] ].

(** A feed without situations. *)
Definition demo_feed_empty : element := feed_element demo_uri demo_pub [].



(** The network answers with a body. *)
Definition net_ok : string -> fetched := fun _ => Fetched "<d2LogicalModel/>".

(** The network is unreachable. *)
Definition net_down : string -> fetched :=
  fun _ => UrlError "[Errno 111] Connection refused".

(* ================================================================== *)
(** * helpers.py: the retriever and the parser *)

Section Helpers.

Context {rt : Runtime}.

(** The private attribute of an [XMLDataRetriever]. *)
Record XMLDataRetriever := mkRetriever { retriever_url : string }.

(** [XMLDataRetriever.retrieve_xml_data] *)
Definition retrieve_xml_data (net : string -> fetched)
  (self : XMLDataRetriever) : result string :=
  let at_ := @line string "retrieve_xml_data" in
  match net (retriever_url self) with
  | Fetched xml_data => Ok xml_data
  | UrlError reason =>
      at_ 33 (raise "URLError"
                ("<urlopen error Failed to retrieve XML data from "
                   ++ retriever_url self ++ ": " ++ reason ++ ">")%string)
  | OpenFailed e => at_ 29 (Raise e)
  | ReadFailed e => at_ 30 (Raise e)
  end.

(** The private attributes of an [XMLDataParser]. *)
Record XMLDataParser := mkParser {
  parser_namespace : namespaces;
  parser_date_format : string;
}.

(** The body of the inner loop of [XMLDataParser.parse_xml_data], lines 66
    to 72. *)
Definition helpers_parse_record (namespace : namespaces)
  (situation_record : element) (car_park_data : list RawCarPark)
  : result (list RawCarPark) :=
  let at_ := fun A => @line A "parse_xml_data" in
  identity <- at_ _ 66
    (x <- find situation_record path_identity namespace ;; text_of x) ;;
  status <- at_ _ 67
    (x <- find situation_record path_status namespace ;; text_of x) ;;
  occupied_spaces <- at_ _ 68
    (x <- find situation_record path_occupied namespace ;;
     t <- text_of x ;; int t) ;;
  total_capacity <- at_ _ 69
    (x <- find situation_record path_capacity namespace ;;
     t <- text_of x ;; int t) ;;
  occupancy <- at_ _ 70
    (x <- find situation_record path_occupancy namespace ;;
     t <- text_of x ;; float_ t) ;;
  Ok (car_park_data
        ++ [mkRawCarPark identity status occupied_spaces total_capacity
              occupancy]).

(** [XMLDataParser.parse_xml_data] *)
Definition parse_xml_data (self : XMLDataParser) (xml_data : string)
  : result (list RawCarPark * datetime) :=
  let at_ := fun A => @line A "parse_xml_data" in
  root <- at_ _ 53 (fromstring xml_data) ;;
  publication_time <- at_ _ 56
    (x <- find root path_publication_time (parser_namespace self) ;;
     text_of x) ;;
  last_updated <- at_ _ 57
    (strptime publication_time (parser_date_format self)) ;;
  situations <- at_ _ 62
    (findall root path_situation (parser_namespace self)) ;;
  car_park_data <-
    for_each situations
      (fun situation car_park_data =>
         records <- at_ _ 63
           (findall situation path_situation_record (parser_namespace self)) ;;
         for_each records (helpers_parse_record (parser_namespace self))
           car_park_data)
      [] ;;
  Ok (car_park_data, last_updated).

End Helpers.

(* ================================================================== *)
(** * More notions used to state the properties *)

(** Two outcomes are the same value, or exceptions of the same class with
    the same message; the tracebacks may differ. *)
Definition same_outcome {A} (m m' : result A) : Prop :=
  match m, m' with
  | Ok a, Ok a' => a = a'
  | Raise e, Raise e' => exn_type e = exn_type e' /\ exn_str e = exn_str e'
  | _, _ => False
  end.

(** [s] is what is left of [t] when some characters of [t] are taken out. *)
Inductive subseq : string -> string -> Prop :=
| subseq_empty : subseq EmptyString EmptyString
| subseq_keep (c : ascii) (s t : string) :
    subseq s t -> subseq (String c s) (String c t)
| subseq_insert (c : ascii) (s t : string) :
    subseq s t -> subseq s (String c t).


(** [e] with the entry of line [n] of [fn] in front of its traceback. *)
Definition through (fn : string) (n : nat) (e : exn) : exn :=
  Exn (exn_type e) (exn_str e) (Frame fn n :: exn_tb e).

Section MoreNotions.

Context {rt : Runtime}.

(** The identity is there and has a colon. *)
Definition splittable (r : RawCarPark) : Prop :=
  exists s, identity r = Some s /\ colon_free s = false.

(** The situationRecord elements in the order in which the loops of the
    parser visit them: payloadPublication elements below the root in
    document order, their situation children, and the situationRecord
    children of these. *)
Definition visited_records (uri : string) (root : element) : list element :=
  flat_map
    (fun situation =>
       with_tag (qname uri "situationRecord") (children situation))
    (flat_map
       (fun pp => with_tag (qname uri "situation") (children pp))
       (with_tag (qname uri "payloadPublication") (descendants root))).

(** The raw record [raw] holds what the first children of [r] with the five
    tags say: the texts as they are, absent or not, and the numbers that
    [int] and [float] read. *)
Definition reads (uri : string) (r : element) (raw : RawCarPark) : Prop :=
  exists c1 c2 c3 c4 c5,
    first_child (qname uri "carParkIdentity") r = Some c1 /\
    first_child (qname uri "carParkStatus") r = Some c2 /\
    first_child (qname uri "occupiedSpaces") r = Some c3 /\
    first_child (qname uri "totalCapacity") r = Some c4 /\
    first_child (qname uri "carParkOccupancy") r = Some c5 /\
    identity raw = text c1 /\
    status raw = text c2 /\
    int (text c3) = Ok (occupied_spaces raw) /\
    int (text c4) = Ok (total_capacity raw) /\
    float_ (text c5) = Ok (occupancy raw).

End MoreNotions.

(* ================================================================== *)
(** * Facts about strings *)

Lemma length_drop_le (n : nat) (s : string) :
  String.length (drop n s) <= String.length s.
Proof.
  revert s; induction n as [|n IH]; intros [|c s]; simpl; try lia.
  specialize (IH s); lia.
Qed.

Lemma strip_append (p t : string) : strip p (p ++ t) = Some t.
Proof.
  induction p as [|c p IH]; simpl; [reflexivity|].
  now rewrite Ascii.eqb_refl.
Qed.

Lemma strip_inv (p s t : string) : strip p s = Some t -> s = (p ++ t)%string.
Proof.
  revert s; induction p as [|c p IH]; intros s H; simpl in *.
  - now inversion H.
  - destruct s as [|c' s]; [discriminate|].
    destruct (Ascii.eqb_spec c' c); [subst|discriminate].
    now rewrite (IH _ H).
Qed.

(* ================================================================== *)
(** * The two patterns *)

(** Cases on the next character of the text, as the matcher compares it. *)
Ltac next_char :=
  match goal with
  | |- context [Ascii.eqb ?c ?d] =>
      is_var c; destruct (Ascii.eqb_spec c d); [subst c|]; simpl;
      try reflexivity
  | |- context [match ?s with EmptyString => _ | String _ _ => _ end] =>
      is_var s; destruct s; simpl; try reflexivity
  | |- context [Re.first_char ?s] =>
      is_var s; destruct s; simpl; try reflexivity
  | |- context [Re.is_word ?c] =>
      is_var c; destruct (Re.is_word c); simpl; try reflexivity
  end.

(** At any position [r'Nor(?:wic)?\b'] matches what [norwich_len] says,
    whatever the character before. *)
Lemma match_at_norwich (prev : option ascii) (s : string) :
  Re.match_at re_norwich prev s = norwich_len s.
Proof.
  unfold Re.match_at, norwich_len, boundary; simpl.
  repeat next_char.
Qed.

(** At any position [r'NORW\b'] matches what [norw_len] says. *)
Lemma match_at_norw (prev : option ascii) (s : string) :
  Re.match_at re_norw prev s = norw_len s.
Proof.
  unfold Re.match_at, norw_len, boundary; simpl.
  repeat next_char.
Qed.

(* ================================================================== *)
(** * [re.sub] for a pattern whose matches do not depend on what precedes *)

Section Sub.

Variables (r : Re.regex) (repl : string) (m : string -> option nat).
Hypothesis match_at_m : forall prev s, Re.match_at r prev s = m s.

Lemma sub_from_drop (n : nat) (prev : option ascii) (s : string) :
  Re.sub_from r repl n prev s = Re.sub r repl (drop n s).
Proof.
  revert n prev; induction s as [|c t IH]; intros n prev.
  - now destruct n.
  - destruct n as [|n]; simpl.
    + unfold Re.sub; simpl. now rewrite !match_at_m.
    + apply IH.
Qed.

(** One step of the scan. *)
Lemma sub_unfold (c : ascii) (t : string) :
  Re.sub r repl (String c t) =
  match m (String c t) with
  | Some (S n) => (repl ++ Re.sub r repl (drop n t))%string
  | _ => String c (Re.sub r repl t)
  end.
Proof.
  unfold Re.sub at 1; simpl. rewrite match_at_m.
  destruct (m (String c t)) as [[|n]|]; now rewrite sub_from_drop.
Qed.

(** A text without occurrences is left as it is. *)
Lemma sub_nowhere (s : string) : nowhere m s -> Re.sub r repl s = s.
Proof.
  induction s as [|c t IH]; intros H; [reflexivity|].
  destruct H as [H1 H2]. rewrite sub_unfold, H1. now rewrite IH.
Qed.

Lemma nowhere_drop (n : nat) (s : string) : nowhere m s -> nowhere m (drop n s).
Proof.
  revert s; induction n as [|n IH]; intros [|c t] H; simpl; auto.
  apply IH, H.
Qed.

End Sub.

(* ================================================================== *)
(** * Functions that copy what does not start with N *)

Section Copy.

Variable G : string -> string.
Hypothesis G_first : forall s, Re.first_char (G s) = Re.first_char s.
Hypothesis G_copy :
  forall c t, Ascii.eqb c "N" = false -> G (String c t) = String c (G t).

Lemma strip_G (p t : string) :
  free_of_N p = true -> strip p (G t) = option_map G (strip p t).
Proof.
  revert t; induction p as [|c p IH]; intros t Hp; simpl; [reflexivity|].
  simpl in Hp. apply andb_prop in Hp as [Hc Hp].
  apply negb_true_iff in Hc.
  destruct t as [|c' t].
  - specialize (G_first ""). destruct (G ""); [reflexivity|discriminate].
  - destruct (Ascii.eqb_spec c' c) as [->|Hne].
    + rewrite G_copy by assumption. simpl. rewrite Ascii.eqb_refl. now apply IH.
    + specialize (G_first (String c' t)). simpl in G_first.
      destruct (G (String c' t)) as [|c'' u]; [discriminate|].
      simpl in G_first. injection G_first as ->.
      now destruct (Ascii.eqb_spec c' c).
Qed.

Lemma boundary_G (t : string) : boundary (G t) = boundary t.
Proof. unfold boundary. now rewrite G_first. Qed.

Lemma norwich_len_G (c : ascii) (t : string) :
  norwich_len (String c (G t)) = norwich_len (String c t).
Proof.
  unfold norwich_len.
  change (strip "Nor" (String c (G t)))
    with (if Ascii.eqb c "N" then strip "or" (G t) else None).
  change (strip "Nor" (String c t))
    with (if Ascii.eqb c "N" then strip "or" t else None).
  destruct (Ascii.eqb c "N"); [|reflexivity].
  rewrite (strip_G "or") by reflexivity.
  destruct (strip "or" t) as [t2|]; cbn [option_map]; [|reflexivity].
  rewrite (strip_G "wic") by reflexivity.
  destruct (strip "wic" t2) as [u|]; cbn [option_map];
    now rewrite !boundary_G.
Qed.

Lemma norw_len_G (c : ascii) (t : string) :
  norw_len (String c (G t)) = norw_len (String c t).
Proof.
  unfold norw_len.
  change (strip "NORW" (String c (G t)))
    with (if Ascii.eqb c "N" then strip "ORW" (G t) else None).
  change (strip "NORW" (String c t))
    with (if Ascii.eqb c "N" then strip "ORW" t else None).
  destruct (Ascii.eqb c "N"); [|reflexivity].
  rewrite (strip_G "ORW") by reflexivity.
  destruct (strip "ORW" t) as [u|]; cbn [option_map];
    now rewrite ?boundary_G.
Qed.

End Copy.

(* ================================================================== *)
(** * The two substitutions *)

Lemma sub_norwich_unfold (c : ascii) (t : string) :
  sub_norwich (String c t) =
  match norwich_len (String c t) with
  | Some (S n) => ("Norwich" ++ sub_norwich (drop n t))%string
  | _ => String c (sub_norwich t)
  end.
Proof. apply sub_unfold, match_at_norwich. Qed.

Lemma sub_norw_unfold (c : ascii) (t : string) :
  sub_norw (String c t) =
  match norw_len (String c t) with
  | Some (S n) => ("NORWICH" ++ sub_norw (drop n t))%string
  | _ => String c (sub_norw t)
  end.
Proof. apply sub_unfold, match_at_norw. Qed.

Lemma norwich_len_N (c : ascii) (t : string) :
  Ascii.eqb c "N" = false -> norwich_len (String c t) = None.
Proof. intros H. unfold norwich_len; simpl. now rewrite H. Qed.

Lemma norw_len_N (c : ascii) (t : string) :
  Ascii.eqb c "N" = false -> norw_len (String c t) = None.
Proof. intros H. unfold norw_len; simpl. now rewrite H. Qed.

Lemma norwich_len_cases (s : string) (n : nat) :
  norwich_len s = Some n ->
  exists t, boundary t = true /\
    (n = 6 /\ s = ("Norwic" ++ t)%string \/ n = 3 /\ s = ("Nor" ++ t)%string).
Proof.
  unfold norwich_len. intros H.
  destruct (strip "Nor" s) as [t|] eqn:E1; [|discriminate].
  apply strip_inv in E1. subst s.
  destruct (strip "wic" t) as [u|] eqn:E2.
  - apply strip_inv in E2. subst t.
    destruct (boundary u) eqn:Eb.
    + injection H as <-. exists u. auto.
    + discriminate.
  - destruct (boundary t) eqn:Eb; [|discriminate].
    injection H as <-. exists t. auto.
Qed.

Lemma norw_len_cases (s : string) (n : nat) :
  norw_len s = Some n ->
  exists t, boundary t = true /\ n = 4 /\ s = ("NORW" ++ t)%string.
Proof.
  unfold norw_len. intros H.
  destruct (strip "NORW" s) as [t|] eqn:E1; [|discriminate].
  apply strip_inv in E1. subst s.
  destruct (boundary t) eqn:Eb; [|discriminate].
  injection H as <-. exists t. auto.
Qed.

Lemma norwich_len_Norwic (t : string) :
  boundary t = true -> norwich_len ("Norwic" ++ t) = Some 6.
Proof.
  intros Ht. unfold norwich_len.
  change ("Norwic" ++ t)%string with ("Nor" ++ ("wic" ++ t))%string.
  now rewrite !strip_append, Ht.
Qed.

Lemma norwich_len_Nor (t : string) :
  boundary t = true -> norwich_len ("Nor" ++ t) = Some 3.
Proof.
  intros Ht. unfold norwich_len. rewrite strip_append.
  destruct (strip "wic" t) as [u|] eqn:E; [|now rewrite Ht].
  apply strip_inv in E. subst t. discriminate Ht.
Qed.

Lemma norw_len_NORW (t : string) :
  boundary t = true -> norw_len ("NORW" ++ t) = Some 4.
Proof.
  intros Ht. unfold norw_len. now rewrite strip_append, Ht.
Qed.

Lemma sub_norwich_copy (c : ascii) (t : string) :
  Ascii.eqb c "N" = false -> sub_norwich (String c t) = String c (sub_norwich t).
Proof. intros H. now rewrite sub_norwich_unfold, norwich_len_N. Qed.

Lemma sub_norw_copy (c : ascii) (t : string) :
  Ascii.eqb c "N" = false -> sub_norw (String c t) = String c (sub_norw t).
Proof. intros H. now rewrite sub_norw_unfold, norw_len_N. Qed.

Lemma sub_norwich_first (s : string) :
  Re.first_char (sub_norwich s) = Re.first_char s.
Proof.
  destruct s as [|c t]; [reflexivity|].
  rewrite sub_norwich_unfold.
  destruct (norwich_len (String c t)) as [[|n]|] eqn:E; try reflexivity.
  apply norwich_len_cases in E as (u & _ & [[_ E]|[_ E]]);
    injection E as -> _; reflexivity.
Qed.

Lemma sub_norw_first (s : string) :
  Re.first_char (sub_norw s) = Re.first_char s.
Proof.
  destruct s as [|c t]; [reflexivity|].
  rewrite sub_norw_unfold.
  destruct (norw_len (String c t)) as [[|n]|] eqn:E; try reflexivity.
  apply norw_len_cases in E as (u & _ & _ & E).
  injection E as -> _; reflexivity.
Qed.

(** The replacement texts contain no occurrence, whatever follows them. *)
Lemma nowhere_norwich_Norwich (v : string) :
  nowhere norwich_len v -> nowhere norwich_len ("Norwich" ++ v).
Proof. intros H. simpl. repeat split; assumption. Qed.

Lemma nowhere_norwich_NORWICH (v : string) :
  nowhere norwich_len v -> nowhere norwich_len ("NORWICH" ++ v).
Proof. intros H. simpl. repeat split; assumption. Qed.

Lemma nowhere_norw_NORWICH (v : string) :
  nowhere norw_len v -> nowhere norw_len ("NORWICH" ++ v).
Proof. intros H. simpl. repeat split; assumption. Qed.

(** After the first substitution no occurrence of the first pattern is
    left. *)
Lemma nowhere_sub_norwich (s : string) : nowhere norwich_len (sub_norwich s).
Proof.
  remember (String.length s) as k eqn:Hk.
  assert (Hle : String.length s <= k) by lia. clear Hk.
  revert s Hle; induction k as [|k IH]; intros [|c t] Hle; simpl in Hle;
    try exact I; try lia.
  rewrite sub_norwich_unfold.
  destruct (norwich_len (String c t)) as [[|n]|] eqn:E.
  - apply norwich_len_cases in E as (u & _ & [[E _]|[E _]]); discriminate.
  - apply nowhere_norwich_Norwich, IH.
    pose proof (length_drop_le n t). lia.
  - split.
    + rewrite (norwich_len_G sub_norwich sub_norwich_first sub_norwich_copy).
      exact E.
    + apply IH. lia.
Qed.

Lemma nowhere_sub_norw (s : string) : nowhere norw_len (sub_norw s).
Proof.
  remember (String.length s) as k eqn:Hk.
  assert (Hle : String.length s <= k) by lia. clear Hk.
  revert s Hle; induction k as [|k IH]; intros [|c t] Hle; simpl in Hle;
    try exact I; try lia.
  rewrite sub_norw_unfold.
  destruct (norw_len (String c t)) as [[|n]|] eqn:E.
  - apply norw_len_cases in E as (u & _ & E & _); discriminate.
  - apply nowhere_norw_NORWICH, IH.
    pose proof (length_drop_le n t). lia.
  - split.
    + rewrite (norw_len_G sub_norw sub_norw_first sub_norw_copy).
      exact E.
    + apply IH. lia.
Qed.

(** The second substitution creates no occurrence of the first pattern. *)
Lemma nowhere_norwich_sub_norw (s : string) :
  nowhere norwich_len s -> nowhere norwich_len (sub_norw s).
Proof.
  remember (String.length s) as k eqn:Hk.
  assert (Hle : String.length s <= k) by lia. clear Hk.
  revert s Hle; induction k as [|k IH]; intros [|c t] Hle H; simpl in Hle;
    try exact I; try lia.
  rewrite sub_norw_unfold.
  destruct H as [H1 H2].
  destruct (norw_len (String c t)) as [[|n]|] eqn:E.
  - split.
    + rewrite (norwich_len_G sub_norw sub_norw_first sub_norw_copy).
      exact H1.
    + apply IH; [lia|assumption].
  - apply nowhere_norwich_NORWICH, IH.
    + pose proof (length_drop_le n t). lia.
    + now apply nowhere_drop.
  - split.
    + rewrite (norwich_len_G sub_norw sub_norw_first sub_norw_copy).
      exact H1.
    + apply IH; [lia|assumption].
Qed.

Lemma repair_name_eq (s : string) : repair_name s = sub_norw (sub_norwich s).
Proof. reflexivity. Qed.

Lemma repair_name_idempotent (s : string) :
  repair_name (repair_name s) = repair_name s.
Proof.
  rewrite !repair_name_eq.
  assert (H1 : sub_norwich (sub_norw (sub_norwich s)) = sub_norw (sub_norwich s)).
  { apply (sub_nowhere _ _ _ match_at_norwich).
    apply nowhere_norwich_sub_norw, nowhere_sub_norwich. }
  rewrite H1.
  apply (sub_nowhere _ _ _ match_at_norw), nowhere_sub_norw.
Qed.

(* ================================================================== *)
(** * Loops *)

Lemma for_each_raise {A S} (l : list A) (body : A -> S -> result S) (x : A) :
  In x l -> (forall acc, exists e, body x acc = Raise e) ->
  forall acc, exists e, for_each l body acc = Raise e.
Proof.
  induction l as [|a l IH]; intros Hin Hx acc; [destruct Hin|].
  simpl. destruct Hin as [->|Hin].
  - destruct (Hx acc) as [e ->]. now exists e.
  - destruct (body a acc) as [acc'|e]; simpl; [now apply IH|now exists e].
Qed.

Lemma for_each_skip {A S} (l : list A) (body : A -> S -> result S) :
  (forall x acc, In x l -> body x acc = Ok acc) ->
  forall acc, for_each l body acc = Ok acc.
Proof.
  induction l as [|a l IH]; intros H acc; [reflexivity|].
  simpl. rewrite H by now left. simpl. apply IH.
  intros x acc' Hx. apply H. now right.
Qed.

(** A loop whose body appends to the accumulator what it makes of each
    element. *)
Lemma for_each_extend {A B} (R : A -> list B -> Prop) (l : list A)
  (body : A -> list B -> result (list B)) :
  (forall x, In x l ->
     exists ys, R x ys /\ forall acc, body x acc = Ok (acc ++ ys)) ->
  forall acc, exists yss,
    for_each l body acc = Ok (acc ++ List.concat yss) /\ Forall2 R l yss.
Proof.
  induction l as [|a l IH]; intros H acc.
  - exists []. simpl. now rewrite app_nil_r.
  - destruct (H a (or_introl eq_refl)) as (ys & HR & Hb).
    destruct (IH (fun x Hx => H x (or_intror Hx)) (acc ++ ys)) as (yss & E & F).
    exists (ys :: yss). simpl. rewrite Hb. simpl. rewrite E, <- app_assoc.
    split; [reflexivity|now constructor].
Qed.

Lemma Forall2_singletons {A B} (R : A -> B -> Prop) (l : list A)
  (yss : list (list B)) :
  Forall2 (fun x ys => exists y, ys = [y] /\ R x y) l yss ->
  Forall2 R l (List.concat yss).
Proof.
  induction 1 as [|x ys l yss (y & -> & H) _ IH]; simpl; now constructor.
Qed.

(* ================================================================== *)
(** * [split] *)

Lemma append_empty_r (s : string) : (s ++ "")%string = s.
Proof. induction s as [|c s IH]; simpl; [reflexivity|now rewrite IH]. Qed.

Lemma split_colon_free (a : string) :
  colon_free a = true -> split ":" a = [a].
Proof.
  induction a as [|c a IH]; simpl; [reflexivity|].
  intros H. apply andb_prop in H as [Hc Ha]. apply negb_true_iff in Hc.
  now rewrite Hc, IH.
Qed.

Lemma split_first (s : string) :
  exists a, colon_free a = true /\
    (s = a /\ split ":" s = [a] \/
     exists t, s = (a ++ ":" ++ t)%string /\ split ":" s = a :: split ":" t).
Proof.
  induction s as [|c s (a & Ha & IH)].
  - exists "". split; [reflexivity|]. now left.
  - simpl. destruct (Ascii.eqb_spec c ":") as [->|Hc].
    + exists "". split; [reflexivity|]. right. now exists s.
    + exists (String c a). split.
      * simpl. rewrite Ha. now destruct (Ascii.eqb_spec c ":").
      * destruct IH as [[-> E]|(t & -> & E)]; rewrite E.
        -- now left.
        -- right. now exists t.
Qed.

Lemma colon_free_app (a t : string) : colon_free (a ++ ":" ++ t) = false.
Proof.
  induction a as [|c a IH]; simpl in *; [reflexivity|].
  rewrite IH. apply andb_false_r.
Qed.

(** The parts of an identity that has a colon. *)
Lemma split_two (s : string) :
  colon_free s = false ->
  exists a b, first_two_parts s a b /\
    nth_error (split ":" s) 0 = Some a /\ nth_error (split ":" s) 1 = Some b.
Proof.
  intros Hs.
  destruct (split_first s) as (a & Ha & [[-> _]|(t & -> & E)]);
    [congruence|].
  destruct (split_first t) as (b & Hb & [[-> E']|(t' & -> & E')]);
    exists a, b; rewrite E, E'; (split; [|split; reflexivity]);
    (split; [assumption|split; [assumption|]]).
  - exists "". split; [|now left]. now rewrite append_empty_r.
  - exists (":" ++ t')%string. split; [reflexivity|]. right. now exists t'.
Qed.

(* ================================================================== *)
(** * Selections in a tree *)

Lemma append_eqb (p a b : string) :
  String.eqb (p ++ a) (p ++ b) = String.eqb a b.
Proof.
  induction p as [|c p IH]; simpl; [reflexivity|].
  now rewrite Ascii.eqb_refl.
Qed.

Lemma qname_eqb (uri a b : string) :
  String.eqb (qname uri a) (qname uri b) = String.eqb a b.
Proof.
  unfold qname. simpl. rewrite append_eqb. simpl. reflexivity.
Qed.

Lemma qualify_qname (tb : list frame) (ns : namespaces) (p uri l : string) :
  lookup p ns = Some uri -> qualify tb ns p l = Ok (qname uri l).
Proof. intros H. unfold qualify. now rewrite H. Qed.

Section Select.

Context {pe : ElementPathErrors}.
Variables (ns : namespaces) (uri : string).
Hypothesis d2lm : lookup "d2lm" ns = Some uri.

Lemma find_descendant (e : element) (l : string) :
  find e [Self; Descendant "d2lm" l] ns
  = Ok (hd_error (with_tag (qname uri l) (descendants e))).
Proof.
  unfold find; simpl. rewrite (qualify_qname _ _ _ _ _ d2lm); simpl.
  now rewrite app_nil_r.
Qed.

Lemma findall_child (e : element) (l : string) :
  findall e [Child "d2lm" l] ns = Ok (with_tag (qname uri l) (children e)).
Proof.
  unfold findall; simpl. rewrite (qualify_qname _ _ _ _ _ d2lm); simpl.
  now rewrite app_nil_r.
Qed.

Lemma find_child (e : element) (l : string) :
  find e [Child "d2lm" l] ns = Ok (first_child (qname uri l) e).
Proof.
  unfold find, first_child; simpl.
  rewrite (qualify_qname _ _ _ _ _ d2lm); simpl.
  now rewrite app_nil_r.
Qed.

Lemma findall_situation (root : element) :
  findall root path_situation ns
  = Ok (flat_map (fun pp => with_tag (qname uri "situation") (children pp))
          (with_tag (qname uri "payloadPublication") (descendants root))).
Proof.
  unfold findall, path_situation; simpl.
  rewrite !(qualify_qname _ _ _ _ _ d2lm); simpl.
  now rewrite app_nil_r.
Qed.

Lemma in_with_tag (t : string) (l : list element) (e : element) :
  In e (with_tag t l) <-> In e l /\ tag e = t.
Proof.
  unfold with_tag. rewrite filter_In. now rewrite String.eqb_eq.
Qed.

End Select.

(* ================================================================== *)
(** * The transformer *)

Lemma for_each_ext {A S} (l : list A) (body body' : A -> S -> result S) :
  (forall x acc, In x l -> body x acc = body' x acc) ->
  forall acc, for_each l body acc = for_each l body' acc.
Proof.
  induction l as [|a l IH]; intros H acc; [reflexivity|].
  simpl. rewrite H by now left.
  destruct (body' a acc); simpl; [|reflexivity].
  apply IH. intros x acc' Hx. apply H. now right.
Qed.

Lemma for_each_map {A B S} (f : A -> B) (l : list A)
  (body : B -> S -> result S) (acc : S) :
  for_each (map f l) body acc = for_each l (fun x => body (f x)) acc.
Proof.
  revert acc; induction l as [|a l IH]; intros acc; [reflexivity|].
  simpl. destruct (body (f a) acc); simpl; [apply IH|reflexivity].
Qed.

Section Transformer.

Context {rt : Runtime}.

Lemma transform_one_ok (fn : string) (l1 l2 l3 : nat) (r : RawCarPark)
  (s a b : string) (acc : list CarPark) :
  identity r = Some s ->
  nth_error (split ":" s) 0 = Some a ->
  nth_error (split ":" s) 1 = Some b ->
  transform_one fn l1 l2 l3 r acc
  = Ok (acc ++ [mkCarPark b (repair_name a) (status r) (occupied_spaces r)
                  (total_capacity r - occupied_spaces r) (total_capacity r)
                  (occupancy r)]).
Proof.
  intros Hs Ha Hb. unfold transform_one, split_, index.
  rewrite Hs. cbn [line bind]. rewrite Hb. cbn [line bind]. rewrite Ha.
  reflexivity.
Qed.

(** An identity without a colon stops the loop body at the line of
    [code = identity_parts[1]]. *)
Lemma transform_one_no_colon (fn : string) (l1 l2 l3 : nat) (r : RawCarPark)
  (s : string) (acc : list CarPark) :
  identity r = Some s -> colon_free s = true ->
  transform_one fn l1 l2 l3 r acc
  = Raise (Exn "IndexError" "list index out of range" [Frame fn l2]).
Proof.
  intros Hs Hc. unfold transform_one, split_, index.
  rewrite Hs. cbn [line bind]. now rewrite split_colon_free.
Qed.

(** The two copies of the loop body agree on what they return. *)
Lemma transform_one_copies (fn fn' : string) (l1 l2 l3 l1' l2' l3' : nat)
  (r : RawCarPark) (acc out : list CarPark) :
  transform_one fn l1 l2 l3 r acc = Ok out ->
  transform_one fn' l1' l2' l3' r acc = Ok out.
Proof.
  unfold transform_one, split_, index.
  destruct (identity r) as [s|]; cbn [line bind raise]; [|discriminate].
  destruct (nth_error (split ":" s) 1); cbn [line bind raise];
    [|discriminate].
  destruct (nth_error (split ":" s) 0); cbn [line bind raise];
    [|discriminate].
  auto.
Qed.

Lemma transform_copies (l : list RawCarPark) (out : list CarPark) :
  _transform_data_to_car_parks l = Ok out ->
  transform_data_to_car_parks l = Ok out.
Proof.
  unfold _transform_data_to_car_parks, transform_data_to_car_parks.
  generalize (@nil CarPark). revert out.
  induction l as [|r l IH]; intros out acc; simpl; [auto|].
  destruct (transform_one "_transform_data_to_car_parks" 147 148 149 r acc)
    as [acc'|e] eqn:E; simpl; [|discriminate].
  rewrite (transform_one_copies _ _ _ _ _ _ _ _ _ _ _ E). simpl. apply IH.
Qed.

Lemma transform_all (fn : string) (l1 l2 l3 : nat) (l : list RawCarPark) :
  Forall (fun r => exists s, identity r = Some s /\ colon_free s = false) l ->
  exists out,
    for_each l (transform_one fn l1 l2 l3) [] = Ok out /\
    Forall2 transformed l out.
Proof.
  intros H.
  destruct (for_each_extend
              (fun r ys => exists c, ys = [c] /\ transformed r c) l
              (transform_one fn l1 l2 l3)) with (acc := @nil CarPark)
    as (yss & E & F).
  - intros r Hr. rewrite Forall_forall in H.
    destruct (H r Hr) as (s & Hs & Hc).
    destruct (split_two s Hc) as (a & b & Hab & H0 & H1).
    exists [mkCarPark b (repair_name a) (status r) (occupied_spaces r)
              (total_capacity r - occupied_spaces r) (total_capacity r)
              (occupancy r)].
    split.
    + eexists. split; [reflexivity|].
      exists s, a, b. split; [exact Hs|]. split; [exact Hab|].
      repeat split.
    + intros acc. now apply transform_one_ok with (s := s).
  - exists (List.concat yss). split; [exact E|].
    now apply Forall2_singletons.
Qed.

(** Every identity that is present has a colon or raises the index error. *)
Lemma transform_raises_index (fn : string) (l1 l2 l3 : nat)
  (l : list RawCarPark) (acc : list CarPark) (e : exn) :
  Forall (fun x => identity x <> None) l ->
  for_each l (transform_one fn l1 l2 l3) acc = Raise e ->
  exn_type e = "IndexError" /\ exn_str e = "list index out of range".
Proof.
  intros H. revert acc. induction H as [|r l Hr _ IH]; intros acc;
    cbn [for_each]; [discriminate|].
  destruct (identity r) as [s|] eqn:Hs; [|contradiction].
  destruct (colon_free s) eqn:Hc.
  - rewrite (transform_one_no_colon _ _ _ _ _ _ _ Hs Hc). cbn [bind].
    intros E. injection E as <-. now split.
  - destruct (split_two s Hc) as (a & b & _ & H0 & H1).
    rewrite (transform_one_ok _ _ _ _ _ _ _ _ _ Hs H0 H1). cbn [bind].
    apply IH.
Qed.

End Transformer.

(* ================================================================== *)
(** * The parser *)

Section Parser.

Context {rt : Runtime} {cfg : Config}.
Variables (ns : namespaces) (uri : string).
Hypothesis d2lm : lookup "d2lm" ns = Some uri.

(** The parser once the document is read and the paths are resolved. *)
Lemma parse_steps (xml_data : string) (root : element) :
  fromstring xml_data = Ok root ->
  _parse_xml_data xml_data ns =
  (publication_time <- line "_parse_xml_data" 111
     (text_of (hd_error (with_tag (qname uri "publicationTime")
                           (descendants root)))) ;;
   last_updated <- line "_parse_xml_data" 112
     (strptime publication_time DATE_FORMAT) ;;
   car_park_data <-
     for_each
       (flat_map (fun pp => with_tag (qname uri "situation") (children pp))
          (with_tag (qname uri "payloadPublication") (descendants root)))
       (fun situation acc =>
          for_each (with_tag (qname uri "situationRecord") (children situation))
            (parse_record ns) acc)
       [] ;;
   Ok (car_park_data, last_updated)).
Proof.
  intros Hroot. unfold _parse_xml_data, path_publication_time.
  rewrite Hroot. cbn [line bind].
  rewrite (find_descendant ns uri d2lm). cbn [bind].
  destruct (line "_parse_xml_data" 111 _) as [pt|e]; cbn [bind]; [|reflexivity].
  destruct (line "_parse_xml_data" 112 _) as [lu|e]; cbn [bind]; [|reflexivity].
  rewrite (findall_situation ns uri d2lm). cbn [line bind].
  erewrite for_each_ext; [reflexivity|].
  intros s acc _. unfold path_situation_record.
  now rewrite (findall_child ns uri d2lm).
Qed.

Lemma parse_record_ok (r c1 c2 c3 c4 c5 : element) (n m : Z) (x : float)
  (acc : list RawCarPark) :
  first_child (qname uri "carParkIdentity") r = Some c1 ->
  first_child (qname uri "carParkStatus") r = Some c2 ->
  first_child (qname uri "occupiedSpaces") r = Some c3 ->
  first_child (qname uri "totalCapacity") r = Some c4 ->
  first_child (qname uri "carParkOccupancy") r = Some c5 ->
  int (text c3) = Ok n -> int (text c4) = Ok m -> float_ (text c5) = Ok x ->
  parse_record ns r acc = Ok (acc ++ [mkRawCarPark (text c1) (text c2) n m x]).
Proof.
  intros H1 H2 H3 H4 H5 Hn Hm Hx. unfold parse_record, path_identity, path_status, path_occupied,
    path_capacity, path_occupancy.
  rewrite !(find_child ns uri d2lm), H1, H2, H3, H4, H5.
  cbn [bind line text_of]. rewrite Hn, Hm, Hx. reflexivity.
Qed.

Lemma parse_record_defective (r : element) :
  defective uri r -> forall acc, exists e, parse_record ns r acc = Raise e.
Proof.
  intros H acc. unfold parse_record, path_identity, path_status, path_occupied,
    path_capacity, path_occupancy.
  rewrite !(find_child ns uri d2lm).
  unfold defective, missing, unreadable in H.
  destruct (first_child (qname uri "carParkIdentity") r) as [c1|];
    cbn [bind line text_of raise]; [|eexists; reflexivity].
  destruct (first_child (qname uri "carParkStatus") r) as [c2|];
    cbn [bind line text_of raise]; [|eexists; reflexivity].
  destruct (first_child (qname uri "occupiedSpaces") r) as [c3|];
    cbn [bind line text_of raise]; [|eexists; reflexivity].
  destruct (int (text c3)) as [n|e3] eqn:E3;
    cbn [bind line]; [|eexists; reflexivity].
  destruct (first_child (qname uri "totalCapacity") r) as [c4|];
    cbn [bind line text_of raise]; [|eexists; reflexivity].
  destruct (int (text c4)) as [m|e4] eqn:E4;
    cbn [bind line]; [|eexists; reflexivity].
  destruct (first_child (qname uri "carParkOccupancy") r) as [c5|];
    cbn [bind line text_of raise]; [|eexists; reflexivity].
  destruct (float_ (text c5)) as [x|e5] eqn:E5;
    cbn [bind line]; [|eexists; reflexivity].
  exfalso.
  destruct H as [H|[H|[H|[H|[H|[H|[H|H]]]]]]]; try discriminate;
    destruct H as (c & e & Hc & He); injection Hc as <-; congruence.
Qed.

(** The situations and the records that the loops visit. *)
Lemma visited_in_loops (root r : element) :
  visited_record uri root r <->
  exists s,
    In s (flat_map (fun pp => with_tag (qname uri "situation") (children pp))
            (with_tag (qname uri "payloadPublication") (descendants root))) /\
    In r (with_tag (qname uri "situationRecord") (children s)).
Proof.
  unfold visited_record. split.
  - intros (pp & s & H1 & H2 & H3 & H4 & H5 & H6).
    exists s. split.
    + apply in_flat_map. exists pp. now rewrite !in_with_tag.
    + now rewrite in_with_tag.
  - intros (s & H1 & H2).
    apply in_flat_map in H1 as (pp & Hpp & Hs).
    rewrite in_with_tag in Hpp, Hs, H2.
    exists pp, s. tauto.
Qed.

(** One defective record among those visited makes the parser raise. *)
Lemma parse_defective (xml_data : string) (root r : element) :
  fromstring xml_data = Ok root ->
  visited_record uri root r -> defective uri r ->
  exists e, _parse_xml_data xml_data ns = Raise e.
Proof.
  intros Hroot Hv Hd. rewrite (parse_steps _ _ Hroot).
  destruct (line "_parse_xml_data" 111 _) as [pt|e]; cbn [bind];
    [|eexists; reflexivity].
  destruct (line "_parse_xml_data" 112 _) as [lu|e]; cbn [bind];
    [|eexists; reflexivity].
  apply visited_in_loops in Hv as (s & Hs & Hr).
  match goal with
  | |- context [for_each ?l ?body ?a] =>
      assert (E : exists e, for_each l body a = Raise e)
  end.
  { apply for_each_raise with (x := s); [assumption|].
    intros acc.
    now apply for_each_raise with (x := r), parse_record_defective. }
  destruct E as [e ->]. eexists; reflexivity.
Qed.

(** Without visited records the parser returns the empty list. *)
Lemma parse_no_records (xml_data : string) (root e : element)
  (ts : datetime) :
  fromstring xml_data = Ok root ->
  hd_error (with_tag (qname uri "publicationTime") (descendants root))
    = Some e ->
  strptime (text e) DATE_FORMAT = Ok ts ->
  (forall r, ~ visited_record uri root r) ->
  _parse_xml_data xml_data ns = Ok ([], ts).
Proof.
  intros Hroot He Hts Hnone. rewrite (parse_steps _ _ Hroot), He.
  cbn [text_of line bind]. rewrite Hts. cbn [line bind].
  rewrite for_each_skip; [reflexivity|].
  intros s acc Hs.
  destruct (with_tag (qname uri "situationRecord") (children s))
    as [|r rs] eqn:E; [reflexivity|].
  exfalso. apply (Hnone r), visited_in_loops.
  exists s. split; [assumption|]. rewrite E. now left.
Qed.

End Parser.

(* ================================================================== *)
(** * Hand-built feeds *)

Lemma with_tag_cons (t : string) (e : element) (l : list element) :
  with_tag t (e :: l)
  = if String.eqb (tag e) t then e :: with_tag t l else with_tag t l.
Proof. reflexivity. Qed.

Lemma with_tag_app (t : string) (l l' : list element) :
  with_tag t (l ++ l') = with_tag t l ++ with_tag t l'.
Proof. apply filter_app. Qed.

(** Compares the tags of the elements of a hand-built feed. *)
Ltac tags :=
  repeat first
    [ rewrite with_tag_cons
    | rewrite with_tag_app
    | rewrite qname_eqb
    | progress cbn [tag children text record_element situation_element leaf
                    feed_element iter flat_map map app hd_error List.concat]
    | match goal with
      | |- context [String.eqb ?a ?b] =>
          let v := eval vm_compute in (String.eqb a b) in
          change (String.eqb a b) with v
      end
    | progress cbn match ].

Section Feed.

Variable uri : string.

Lemma records_below (t : string) (rs : list record_text) :
  with_tag (qname uri t) (flat_map iter (map (record_element uri) rs))
  = flat_map (fun r => with_tag (qname uri t) (iter (record_element uri r))) rs.
Proof.
  induction rs as [|r rs IH]; [reflexivity|].
  cbn [map flat_map]. now rewrite with_tag_app, IH.
Qed.

Lemma situations_below (t : string) (sits : list (list record_text)) :
  with_tag (qname uri t)
    (flat_map iter
       (map (situation_element uri) (map (map (record_element uri)) sits)))
  = flat_map
      (fun rs => with_tag (qname uri t)
                   (iter (situation_element uri (map (record_element uri) rs))))
      sits.
Proof.
  induction sits as [|rs sits IH]; [reflexivity|].
  cbn [map flat_map]. now rewrite with_tag_app, IH.
Qed.

Lemma flat_map_nil {A B : Type} (f : A -> list B) (l : list A) :
  (forall x, f x = []) -> flat_map f l = [].
Proof.
  intros H. induction l as [|a l IH]; [reflexivity|].
  cbn [flat_map]. now rewrite H, IH.
Qed.

Lemma flat_map_singleton {A B : Type} (f : A -> list B) (g : A -> B) (l : list A) :
  (forall x, f x = [g x]) -> flat_map f l = map g l.
Proof.
  intros H. induction l as [|a l IH]; [reflexivity|].
  cbn [flat_map map]. now rewrite H, IH.
Qed.

Lemma flat_map_concat_map {A C : Type} (f : list A -> list C) (g : A -> C)
  (ls : list (list A)) :
  (forall l, f l = map g l) -> flat_map f ls = map g (List.concat ls).
Proof.
  intros H. induction ls as [|l ls IH]; [reflexivity|].
  cbn [flat_map List.concat]. now rewrite H, IH, map_app.
Qed.

(** The situationRecord elements of a situation, in document order. *)
Lemma situation_records (rs : list record_text) :
  with_tag (qname uri "situationRecord")
    (iter (situation_element uri (map (record_element uri) rs)))
  = map (record_element uri) rs.
Proof.
  cbn [situation_element iter]. tags.
  rewrite records_below. apply flat_map_singleton.
  intros r. now tags.
Qed.

(** A situation holds no element tagged [t] when [t] is none of the tags
    that the builder puts below a situation. *)
Lemma situation_without (t : string) (rs : list record_text) :
  existsb (String.eqb t)
    ["situation"; "situationRecord"; "carParkIdentity"; "carParkStatus";
     "occupiedSpaces"; "totalCapacity"; "carParkOccupancy"] = false ->
  with_tag (qname uri t)
    (iter (situation_element uri (map (record_element uri) rs))) = [].
Proof.
  intros H. cbn [existsb] in H. rewrite !orb_false_iff in H.
  destruct H as (H1 & H2 & H3 & H4 & H5 & H6 & H7 & _).
  rewrite String.eqb_sym in H1, H2, H3, H4, H5, H6, H7.
  cbn [situation_element iter]. rewrite with_tag_cons. cbn [tag].
  rewrite qname_eqb, H1, records_below. apply flat_map_nil.
  intros r. cbn [record_element leaf iter flat_map app].
  rewrite !with_tag_cons. cbn [tag].
  now rewrite !qname_eqb, H2, H3, H4, H5, H6, H7.
Qed.

(** The situationRecord elements of the feed, in document order, are the
    records it was built from, situation after situation. *)
Lemma feed_records (pub : string) (sits : list (list record_text)) :
  with_tag (qname uri "situationRecord") (iter (feed_of uri pub sits))
  = map (record_element uri) (List.concat sits).
Proof.
  unfold feed_of. cbn [feed_element iter flat_map]. tags.
  rewrite app_nil_r, situations_below.
  apply flat_map_concat_map, situation_records.
Qed.

Lemma feed_publication_time (pub : string) (sits : list (list record_text)) :
  hd_error (with_tag (qname uri "publicationTime")
              (descendants (feed_of uri pub sits)))
  = Some (leaf uri "publicationTime" pub).
Proof.
  unfold feed_of, descendants. now tags.
Qed.

Lemma feed_situations (pub : string) (sits : list (list record_text)) :
  flat_map (fun pp => with_tag (qname uri "situation") (children pp))
    (with_tag (qname uri "payloadPublication")
       (descendants (feed_of uri pub sits)))
  = map (situation_element uri) (map (map (record_element uri)) sits).
Proof.
  unfold feed_of, descendants. tags.
  rewrite situations_below.
  rewrite (flat_map_nil _ sits) by (intros rs; now apply situation_without).
  cbn [with_tag filter app flat_map]. rewrite app_nil_r.
  induction (map (map (record_element uri)) sits) as [|s l IH];
    [reflexivity|].
  tags. now rewrite IH.
Qed.

End Feed.

(* ================================================================== *)
(** * [refresh] *)

Section Refresh.

Context {rt : Runtime} {cfg : Config}.

Lemma refresh_raise (net : string -> fetched) (self : LiveParkingNorwich)
  (e : exn) :
  chain_raises net self e ->
  exists lu,
    refresh net self
    = ([], mkSelf (url self) (namespace self) lu (Some false)
             (Some (exn_type e ++ ": " ++ exn_str e)%string)
             (TbList (format_tb (exn_tb e)))) /\
    (lu = last_updated self \/
     exists xml l ts,
       _retrieve_xml_data net (url self) = Ok xml /\
       _parse_xml_data xml (namespace self) = Ok (l, ts) /\ lu = Some ts).
Proof.
  intros [H|[(xml & H1 & H2)|(xml & l & ts & H1 & H2 & H3)]]; unfold refresh.
  - rewrite H. eexists. split; [reflexivity|now left].
  - rewrite H1. cbn [line]. rewrite H2. eexists. split; [reflexivity|now left].
  - rewrite H1. cbn [line]. rewrite H2. cbn [line]. rewrite H3.
    eexists. split; [reflexivity|]. right. now exists xml, l, ts.
Qed.

Lemma line_raise {A} (fn : string) (n : nat) (m : result A) (e : exn) :
  m = Raise e ->
  line fn n m = Raise (Exn (exn_type e) (exn_str e) (Frame fn n :: exn_tb e)).
Proof. now intros ->. Qed.

Lemma chain_raises_frame (net : string -> fetched) (self : LiveParkingNorwich)
  (e : exn) :
  chain_raises net self e ->
  exists n, hd_error (exn_tb e) = Some (Frame "refresh" n).
Proof.
  assert (L : forall A n (m : result A),
             line "refresh" n m = Raise e ->
             hd_error (exn_tb e) = Some (Frame "refresh" n)).
  { intros A n [a|e'] H; [discriminate|]. now injection H as <-. }
  intros [H|[(xml & _ & H)|(xml & l & ts & _ & _ & H)]];
    eexists; eapply L; exact H.
Qed.

Lemma refresh_ok (net : string -> fetched) (self : LiveParkingNorwich)
  (xml : string) (car_park_data : list RawCarPark) (ts : datetime)
  (car_parks : list CarPark) :
  _retrieve_xml_data net (url self) = Ok xml ->
  _parse_xml_data xml (namespace self) = Ok (car_park_data, ts) ->
  _transform_data_to_car_parks car_park_data = Ok car_parks ->
  refresh net self
  = (car_parks,
     mkSelf (url self) (namespace self) (Some ts) (Some true) (Some "")
       (TbStr "")).
Proof.
  intros H1 H2 H3. unfold refresh.
  rewrite H1. cbn [line]. rewrite H2. cbn [line]. now rewrite H3.
Qed.

Lemma retrieve_fetched (net : string -> fetched) (u xml : string) :
  net u = Fetched xml -> _retrieve_xml_data net u = Ok xml.
Proof. intros H. unfold _retrieve_xml_data. now rewrite H. Qed.

(** When the parser raises, so does the chain. *)
Lemma chain_raises_parse (net : string -> fetched) (self : LiveParkingNorwich)
  (xml : string) (e : exn) :
  _retrieve_xml_data net (url self) = Ok xml ->
  _parse_xml_data xml (namespace self) = Raise e ->
  exists e', chain_raises net self e'.
Proof.
  intros H1 H2. eexists. right. left. exists xml. split; [exact H1|].
  exact (line_raise _ _ _ _ H2).
Qed.

Lemma chain_raises_transform (net : string -> fetched)
  (self : LiveParkingNorwich) (xml : string) (l : list RawCarPark)
  (ts : datetime) (e : exn) :
  _retrieve_xml_data net (url self) = Ok xml ->
  _parse_xml_data xml (namespace self) = Ok (l, ts) ->
  _transform_data_to_car_parks l = Raise e ->
  exists e', chain_raises net self e' /\ exn_type e' = exn_type e
             /\ exn_str e' = exn_str e.
Proof.
  intros H1 H2 H3. eexists. split.
  - right. right. exists xml, l, ts. split; [exact H1|]. split; [exact H2|].
    exact (line_raise _ _ _ _ H3).
  - now split.
Qed.

Lemma refresh_failed (net : string -> fetched) (self : LiveParkingNorwich)
  (e : exn) :
  chain_raises net self e ->
  fst (refresh net self) = [] /\ success (snd (refresh net self)) = Some false.
Proof.
  intros H. destruct (refresh_raise _ _ _ H) as (lu & -> & _). now split.
Qed.

End Refresh.

(* ================================================================== *)
(** * The parser on hand-built feeds *)

Section ParseFeed.

Context {rt : Runtime} {cfg : Config}.
Variables (ns : namespaces) (uri : string).
Hypothesis d2lm : lookup "d2lm" ns = Some uri.

Lemma with_tag_record_elements (rs : list record_text) :
  with_tag (qname uri "situationRecord") (map (record_element uri) rs)
  = map (record_element uri) rs.
Proof.
  induction rs as [|r rs IH]; [reflexivity|].
  tags. now rewrite IH.
Qed.

Lemma parse_record_element (r : record_text) :
  numeric r ->
  exists raw, record_matches r raw /\
    forall acc, parse_record ns (record_element uri r) acc = Ok (acc ++ [raw]).
Proof.
  intros ((n & Hn) & (m & Hm) & (x & Hx)).
  exists (mkRawCarPark (Some (t_identity r)) (Some (t_status r)) n m x).
  split; [now repeat split|].
  intros acc.
  apply (parse_record_ok ns uri d2lm) with
    (c1 := leaf uri "carParkIdentity" (t_identity r))
    (c2 := leaf uri "carParkStatus" (t_status r))
    (c3 := leaf uri "occupiedSpaces" (t_occupied r))
    (c4 := leaf uri "totalCapacity" (t_capacity r))
    (c5 := leaf uri "carParkOccupancy" (t_occupancy r));
    try assumption; unfold first_child; now tags.
Qed.

Lemma parse_situation (rs : list record_text) :
  Forall numeric rs ->
  exists raws, Forall2 record_matches rs raws /\
    forall acc,
      for_each
        (with_tag (qname uri "situationRecord")
           (children (situation_element uri (map (record_element uri) rs))))
        (parse_record ns) acc
      = Ok (acc ++ raws).
Proof.
  intros H. cbn [situation_element children].
  rewrite with_tag_record_elements.
  induction H as [|r rs Hr _ (raws & F & E)].
  - exists []. split; [constructor|]. intros acc. cbn. now rewrite app_nil_r.
  - destruct (parse_record_element r Hr) as (raw & Hraw & Eraw).
    exists (raw :: raws). split; [now constructor|].
    intros acc. cbn [map for_each]. rewrite Eraw. cbn [bind].
    now rewrite E, <- app_assoc.
Qed.

Lemma parse_situations (sits : list (list record_text)) :
  Forall (Forall numeric) sits ->
  exists raws, Forall2 record_matches (List.concat sits) raws /\
    forall acc,
      for_each
        (map (situation_element uri) (map (map (record_element uri)) sits))
        (fun situation acc =>
           for_each
             (with_tag (qname uri "situationRecord") (children situation))
             (parse_record ns) acc)
        acc
      = Ok (acc ++ raws).
Proof.
  induction 1 as [|rs sits Hrs _ (raws & F & E)].
  - exists []. split; [constructor|]. intros acc. cbn. now rewrite app_nil_r.
  - destruct (parse_situation rs Hrs) as (raws1 & F1 & E1).
    exists (raws1 ++ raws). split; [now apply Forall2_app|].
    intros acc. cbn [map for_each List.concat]. rewrite E1. cbn [bind].
    now rewrite E, <- app_assoc.
Qed.

End ParseFeed.

(* ================================================================== *)
(** * The properties of the pipeline *)

Section Claims.

Context {rt : Runtime} {cfg : Config}.

(** C1. [refresh] lets no exception out. Whenever the fetch, the parse or the
    transform raises an exception [e], [refresh] returns the empty list, sets
    [success] to false, [error_message] to the class name of [e], a colon and
    a space, and the message of [e], which is not the empty string, and
    [traceback] to the formatted entries of the traceback of [e], which
    starts in [refresh]. *)
Theorem refresh_contains_failure (net : string -> fetched)
  (self : LiveParkingNorwich) (e : exn) :
  chain_raises net self e ->
  fst (refresh net self) = [] /\
  success (snd (refresh net self)) = Some false /\
  error_message (snd (refresh net self))
    = Some (exn_type e ++ ": " ++ exn_str e)%string /\
  (exn_type e ++ ": " ++ exn_str e)%string <> "" /\
  traceback (snd (refresh net self)) = TbList (format_tb (exn_tb e)) /\
  exists n, hd_error (exn_tb e) = Some (Frame "refresh" n).
Proof.
  intros H. destruct (refresh_raise _ _ _ H) as (lu & -> & _).
  repeat split.
  - destruct (exn_type e); discriminate.
  - now apply chain_raises_frame with (net := net) (self := self).
Qed.

(** C2. When every identity has a colon, both copies of the transformer
    return one output record for each raw record, in the same order: its
    code is the second of the parts of the identity separated by colons, its
    name is the repair of the first part, the status, the occupied spaces,
    the capacity and the occupancy are those of the raw record, and the
    remaining spaces are the capacity minus the occupied spaces, whatever
    its sign. *)
Theorem transform_is_pointwise (car_park_data : list RawCarPark) :
  Forall (fun r => exists s, identity r = Some s /\ colon_free s = false)
    car_park_data ->
  exists car_parks,
    _transform_data_to_car_parks car_park_data = Ok car_parks /\
    transform_data_to_car_parks car_park_data = Ok car_parks /\
    List.length car_parks = List.length car_park_data /\
    Forall2 transformed car_park_data car_parks.
Proof.
  intros H.
  destruct (transform_all "_transform_data_to_car_parks" 147 148 149 _ H)
    as (out & E & F).
  exists out. split; [exact E|]. split; [now apply transform_copies|].
  split; [|exact F]. symmetry. eapply Forall2_length, F.
Qed.

(** The round trip on a hand-built minimal feed: for a feed made of a
    publication time that [strptime] accepts and of situations whose records
    carry five texts with valid numbers, the parser returns as many raw
    records as the feed has situationRecord elements, the i-th raw record
    holds the texts of the i-th situationRecord element of the document, and
    the timestamp is the one parsed from the publication time. *)
Lemma parse_hand_built_feed (namespace : namespaces) (uri xml_data pub : string)
  (ts : datetime) (sits : list (list record_text)) :
  lookup "d2lm" namespace = Some uri ->
  fromstring xml_data = Ok (feed_of uri pub sits) ->
  strptime_str pub DATE_FORMAT = Ok ts ->
  Forall (Forall numeric) sits ->
  exists car_park_data,
    _parse_xml_data xml_data namespace = Ok (car_park_data, ts) /\
    with_tag (qname uri "situationRecord") (iter (feed_of uri pub sits))
      = map (record_element uri) (List.concat sits) /\
    List.length car_park_data = List.length (List.concat sits) /\
    Forall2 record_matches (List.concat sits) car_park_data.
Proof.
  intros Hns Hroot Hts Hnum.
  rewrite (parse_steps namespace uri Hns _ _ Hroot).
  rewrite feed_publication_time, feed_situations.
  cbn [text_of leaf text line bind strptime]. rewrite Hts. cbn [line bind].
  destruct (parse_situations namespace uri Hns sits Hnum) as (raws & F & E).
  rewrite E. cbn [app bind].
  exists raws. split; [reflexivity|]. split; [apply feed_records|].
  split; [|exact F]. symmetry. eapply Forall2_length, F.
Qed.

(** C4, as amended. The parser recovers nothing record by record: when any
    one situationRecord that it visits lacks one of its five children, or
    has an
    occupiedSpaces, totalCapacity or carParkOccupancy whose text is absent
    or is not a valid number, the whole parse raises, and [refresh] on that
    feed reports a failure and returns no record, not the records before the
    bad one. *)
Theorem defective_record_aborts (net : string -> fetched)
  (self : LiveParkingNorwich) (uri xml_data : string) (root r : element) :
  lookup "d2lm" (namespace self) = Some uri ->
  net (url self) = Fetched xml_data ->
  fromstring xml_data = Ok root ->
  visited_record uri root r ->
  defective uri r ->
  (exists e, _parse_xml_data xml_data (namespace self) = Raise e) /\
  fst (refresh net self) = [] /\
  success (snd (refresh net self)) = Some false.
Proof.
  intros Hns Hnet Hroot Hv Hd.
  destruct (parse_defective _ _ Hns _ _ _ Hroot Hv Hd) as [e He].
  split; [now exists e|].
  destruct (chain_raises_parse net self xml_data e) as [e' He'];
    [now apply retrieve_fetched|assumption|].
  now apply refresh_failed with (e := e').
Qed.

(** C5, as amended. The name repair replaces every occurrence of ["Norwic"]
    or ["Nor"] that a word boundary follows (the end of the name or a
    character that is not a word character of [re], that is neither
    alphanumeric nor the underscore), wherever it stands in the name, with
    ["Norwich"], scanning from the left and resuming after each occurrence,
    then in the same way every ["NORW"] that a word boundary follows with
    ["NORWICH"]; the characters outside these occurrences are copied. *)
Theorem repair_name_scans :
  (forall name, repair_name name = sub_norw (sub_norwich name)) /\
  sub_norwich "" = "" /\
  (forall t, boundary t = true ->
     sub_norwich ("Norwic" ++ t) = ("Norwich" ++ sub_norwich t)%string) /\
  (forall t, boundary t = true ->
     sub_norwich ("Nor" ++ t) = ("Norwich" ++ sub_norwich t)%string) /\
  (forall c t,
     (forall u, boundary u = true ->
        String c t <> ("Norwic" ++ u)%string /\
        String c t <> ("Nor" ++ u)%string) ->
     sub_norwich (String c t) = String c (sub_norwich t)) /\
  sub_norw "" = "" /\
  (forall t, boundary t = true ->
     sub_norw ("NORW" ++ t) = ("NORWICH" ++ sub_norw t)%string) /\
  (forall c t,
     (forall u, boundary u = true -> String c t <> ("NORW" ++ u)%string) ->
     sub_norw (String c t) = String c (sub_norw t)).
Proof.
  split; [reflexivity|]. split; [reflexivity|].
  split; [|split; [|split; [|split; [reflexivity|split]]]].
  - intros t Ht.
    change (sub_norwich ("Norwic" ++ t))
      with (sub_norwich (String "N" ("orwic" ++ t))).
    rewrite sub_norwich_unfold.
    change (String "N" ("orwic" ++ t)) with ("Norwic" ++ t)%string.
    now rewrite norwich_len_Norwic.
  - intros t Ht.
    change (sub_norwich ("Nor" ++ t))
      with (sub_norwich (String "N" ("or" ++ t))).
    rewrite sub_norwich_unfold.
    change (String "N" ("or" ++ t)) with ("Nor" ++ t)%string.
    now rewrite norwich_len_Nor.
  - intros c t H. rewrite sub_norwich_unfold.
    destruct (norwich_len (String c t)) as [n|] eqn:E; [|reflexivity].
    apply norwich_len_cases in E as (u & Hu & [[_ E]|[_ E]]);
      destruct (H u Hu); contradiction.
  - intros t Ht.
    change (sub_norw ("NORW" ++ t)) with (sub_norw (String "N" ("ORW" ++ t))).
    rewrite sub_norw_unfold.
    change (String "N" ("ORW" ++ t)) with ("NORW" ++ t)%string.
    now rewrite norw_len_NORW.
  - intros c t H. rewrite sub_norw_unfold.
    destruct (norw_len (String c t)) as [n|] eqn:E; [|reflexivity].
    apply norw_len_cases in E as (u & Hu & _ & E).
    now destruct (H u Hu).
Qed.

(** C6. A raw record whose identity has no colon makes both copies of the
    transformer raise the index error; a list that holds such a record makes
    the transformer raise, with the index error when no identity of the list
    is absent; and when the parser hands such a record to [refresh], the
    call returns the empty list with [success] false. *)
Theorem identity_without_colon (r : RawCarPark) (s : string) :
  identity r = Some s -> colon_free s = true ->
  _transform_data_to_car_parks [r]
    = Raise (Exn "IndexError" "list index out of range"
               [Frame "_transform_data_to_car_parks" 148]) /\
  transform_data_to_car_parks [r]
    = Raise (Exn "IndexError" "list index out of range"
               [Frame "transform_data_to_car_parks" 94]) /\
  (forall l, In r l ->
     exists e, _transform_data_to_car_parks l = Raise e /\
       (Forall (fun x => identity x <> None) l ->
        exn_type e = "IndexError" /\
        exn_str e = "list index out of range")) /\
  (forall net self xml_data l ts,
     _retrieve_xml_data net (url self) = Ok xml_data ->
     _parse_xml_data xml_data (namespace self) = Ok (l, ts) ->
     In r l ->
     fst (refresh net self) = [] /\
     success (snd (refresh net self)) = Some false).
Proof.
  intros Hs Hc.
  assert (Hl : forall l, In r l ->
                 exists e, _transform_data_to_car_parks l = Raise e).
  { intros l Hin. apply for_each_raise with (x := r); [assumption|].
    intros acc. eexists. now apply transform_one_no_colon with (s := s). }
  split; [|split; [|split]].
  - unfold _transform_data_to_car_parks. cbn [for_each].
    now rewrite (transform_one_no_colon _ _ _ _ _ _ _ Hs Hc).
  - unfold transform_data_to_car_parks. cbn [for_each].
    now rewrite (transform_one_no_colon _ _ _ _ _ _ _ Hs Hc).
  - intros l Hin. destruct (Hl l Hin) as [e He]. exists e.
    split; [assumption|]. intros Hall.
    exact (transform_raises_index _ _ _ _ _ _ _ Hall He).
  - intros net self xml_data l ts H1 H2 Hin.
    destruct (Hl l Hin) as [e He].
    destruct (chain_raises_transform net self _ _ _ _ H1 H2 He)
      as (e' & He' & _).
    now apply refresh_failed with (e := e').
Qed.

(** C7. When the fetch, the parse and the transform succeed, [refresh]
    returns the transformed records, sets [success] to true,
    [error_message] to the empty string, [last_updated] to the publication
    time that the parser returned, and [traceback] to the empty string,
    which as a sequence has no item. *)
Theorem refresh_success (net : string -> fetched) (self : LiveParkingNorwich)
  (xml_data : string) (car_park_data : list RawCarPark)
  (publication_time : datetime) (car_parks : list CarPark) :
  _retrieve_xml_data net (url self) = Ok xml_data ->
  _parse_xml_data xml_data (namespace self)
    = Ok (car_park_data, publication_time) ->
  _transform_data_to_car_parks car_park_data = Ok car_parks ->
  fst (refresh net self) = car_parks /\
  success (snd (refresh net self)) = Some true /\
  error_message (snd (refresh net self)) = Some "" /\
  traceback (snd (refresh net self)) = TbStr "" /\
  tb_items (traceback (snd (refresh net self))) = Some [] /\
  last_updated (snd (refresh net self)) = Some publication_time.
Proof.
  intros H1 H2 H3. rewrite (refresh_ok _ _ _ _ _ _ H1 H2 H3).
  now repeat split.
Qed.

(** C8, as amended. Every call of [refresh] overwrites [success],
    [error_message] and [traceback]: these three and the list returned do not
    depend on what the attributes held before the call. [last_updated] is
    overwritten with the publication time of this call when the fetch and
    the parse succeed, also when the transform then fails; when the fetch or
    the parse fails it keeps the value it had before the call. *)
Theorem refresh_overwrites (net : string -> fetched) (u : string)
  (ns : namespaces)
  (lu1 lu2 : option datetime) (s1 s2 : option bool)
  (m1 m2 : option string) (t1 t2 : tb_value) :
  let a := refresh net (mkSelf u ns lu1 s1 m1 t1) in
  let b := refresh net (mkSelf u ns lu2 s2 m2 t2) in
  fst a = fst b /\
  success (snd a) = success (snd b) /\
  error_message (snd a) = error_message (snd b) /\
  traceback (snd a) = traceback (snd b) /\
  (success (snd a) = Some true \/ success (snd a) = Some false) /\
  match xml <- _retrieve_xml_data net u ;; _parse_xml_data xml ns with
  | Ok (_, ts) =>
      last_updated (snd a) = Some ts /\ last_updated (snd b) = Some ts
  | Raise _ =>
      last_updated (snd a) = lu1 /\ last_updated (snd b) = lu2
  end.
Proof.
  unfold refresh. cbn [url namespace last_updated].
  destruct (_retrieve_xml_data net u) as [xml|e]; cbn [line bind];
    [|now auto 10].
  destruct (_parse_xml_data xml ns) as [[l ts]|e]; cbn [line];
    [|now auto 10].
  destruct (_transform_data_to_car_parks l); cbn [line]; now auto 10.
Qed.

(** C9. The name repair is idempotent, and both copies of the transformer
    turn the identity ["Harford, Ipswich Road, Nor:CPN0015"] into the name
    ["Harford, Ipswich Road, Norwich"] with the code ["CPN0015"], and the
    identity ["SOME NORW:CPX9"] into a name that ends with ["NORWICH"]. *)
Theorem repair_idempotent_with_examples :
  (forall s, repair_name (repair_name s) = repair_name s) /\
  (forall st occ cap ocy,
     exists c,
       let raw :=
         mkRawCarPark (Some "Harford, Ipswich Road, Nor:CPN0015") st occ cap
           ocy in
       _transform_data_to_car_parks [raw] = Ok [c] /\
       transform_data_to_car_parks [raw] = Ok [c] /\
       name c = "Harford, Ipswich Road, Norwich" /\ code c = "CPN0015") /\
  (forall st occ cap ocy,
     exists c,
       let raw := mkRawCarPark (Some "SOME NORW:CPX9") st occ cap ocy in
       _transform_data_to_car_parks [raw] = Ok [c] /\
       transform_data_to_car_parks [raw] = Ok [c] /\
       ends_with "NORWICH" (name c) = true /\ code c = "CPX9").
Proof.
  split; [exact repair_name_idempotent|].
  split; intros st occ cap ocy; eexists; cbv zeta;
    (split; [reflexivity|]); (split; [reflexivity|]);
    split; reflexivity.
Qed.

(** C10. A feed whose publication time parses and in which the parser finds
    no situationRecord, because there is no situation or because the
    situations are empty, is parsed into the empty list, and [refresh] on it
    returns the empty list with [success] true and the empty
    [error_message]: the empty list alone does not tell a failure. *)
Theorem empty_feed_succeeds (net : string -> fetched)
  (self : LiveParkingNorwich) (uri xml_data : string) (root e : element)
  (ts : datetime) :
  lookup "d2lm" (namespace self) = Some uri ->
  net (url self) = Fetched xml_data ->
  fromstring xml_data = Ok root ->
  hd_error (with_tag (qname uri "publicationTime") (descendants root))
    = Some e ->
  strptime (text e) DATE_FORMAT = Ok ts ->
  (forall r, ~ visited_record uri root r) ->
  _parse_xml_data xml_data (namespace self) = Ok ([], ts) /\
  fst (refresh net self) = [] /\
  success (snd (refresh net self)) = Some true /\
  error_message (snd (refresh net self)) = Some "".
Proof.
  intros Hns Hnet Hroot He Hts Hnone.
  pose proof (parse_no_records _ _ Hns _ _ _ _ Hroot He Hts Hnone) as Hp.
  split; [exact Hp|].
  rewrite (refresh_ok net self xml_data [] ts []);
    [now repeat split|now apply retrieve_fetched|exact Hp|reflexivity].
Qed.

End Claims.

(* ================================================================== *)
(** * The properties at concrete inputs *)

(** The network is down: the URLError of [_retrieve_xml_data] ends in the
    attributes. *)
Lemma refresh_contains_failure_witness :
  let rt := demo_runtime (Ok demo_feed) in
  let e :=
    Exn "URLError"
      "<urlopen error Failed to retrieve XML data from https://example.org/feed.xml: [Errno 111] Connection refused>"
      [Frame "refresh" 174; Frame "_retrieve_xml_data" 94] in
  let r := @refresh rt demo_config net_down (@init rt demo_config) in
  fst r = [] /\
  success (snd r) = Some false /\
  error_message (snd r) = Some (exn_type e ++ ": " ++ exn_str e)%string /\
  (exn_type e ++ ": " ++ exn_str e)%string <> "" /\
  traceback (snd r) = TbList (@format_tb rt (exn_tb e)) /\
  exists n, hd_error (exn_tb e) = Some (Frame "refresh" n).
Proof.
  cbv zeta.
  apply (@refresh_contains_failure (demo_runtime (Ok demo_feed)) demo_config).
  left. reflexivity.
Defined.

(** Two raw records with a colon in their identity. *)
Lemma transform_is_pointwise_witness :
  let rt := demo_runtime (Ok demo_feed) in
  let l :=
    [ @mkRawCarPark rt (Some "Harford, Ipswich Road, Nor:CPN0015")
        (Some "enoughSpacesAvailable") 120 500 24%Z;
      @mkRawCarPark rt (Some "SOME NORW:CPX9:extra") None 90 80 112%Z ] in
  exists car_parks,
    _transform_data_to_car_parks l = Ok car_parks /\
    transform_data_to_car_parks l = Ok car_parks /\
    List.length car_parks = List.length l /\
    Forall2 transformed l car_parks.
Proof.
  cbv zeta. apply (@transform_is_pointwise (demo_runtime (Ok demo_feed))).
  repeat constructor; eexists; split; reflexivity.
Defined.

(** The feed of two situations with one record each. *)
Lemma parse_hand_built_feed_example :
  let rt := demo_runtime (Ok demo_feed) in
  let sits := [[demo_record]; [demo_record2]] in
  exists car_park_data,
    @_parse_xml_data rt demo_config "<d2LogicalModel/>"
      (@XML_NAMESPACE demo_config) = Ok (car_park_data, demo_pub) /\
    with_tag (qname demo_uri "situationRecord")
      (iter (feed_of demo_uri demo_pub sits))
      = map (record_element demo_uri) (List.concat sits) /\
    List.length car_park_data = List.length (List.concat sits) /\
    Forall2 (@record_matches rt) (List.concat sits) car_park_data.
Proof.
  cbv zeta.
  apply (@parse_hand_built_feed (demo_runtime (Ok demo_feed)) demo_config
           (@XML_NAMESPACE demo_config) demo_uri "<d2LogicalModel/>" demo_pub
           demo_pub [[demo_record]; [demo_record2]]).
  - reflexivity.
  - reflexivity.
  - reflexivity.
  - repeat constructor; eexists; reflexivity.
Defined.

(** The feed whose second record has no carParkOccupancy: no record is
    returned, not the first one. *)
Lemma defective_record_aborts_witness :
  let rt := demo_runtime (Ok demo_feed_missing) in
  let self := @init rt demo_config in
  (exists e, @_parse_xml_data rt demo_config "<d2LogicalModel/>"
               (namespace self) = Raise e) /\
  fst (@refresh rt demo_config net_ok self) = [] /\
  success (snd (@refresh rt demo_config net_ok self)) = Some false.
Proof.
  cbv zeta.
  apply (@defective_record_aborts (demo_runtime (Ok demo_feed_missing))
           demo_config net_ok (@init _ demo_config) demo_uri
           "<d2LogicalModel/>" demo_feed_missing
           (Element (qname demo_uri "situationRecord") None
              [ leaf demo_uri "carParkIdentity" "SOME NORW:CPX9";
                leaf demo_uri "carParkStatus" "carParkFull";
                leaf demo_uri "occupiedSpaces" "80";
                leaf demo_uri "totalCapacity" "80" ])).
  - reflexivity.
  - reflexivity.
  - reflexivity.
  - eexists. eexists.
    split; [left; reflexivity|]. split; [reflexivity|].
    split; [right; right; left; reflexivity|]. split; [reflexivity|].
    split; [left; reflexivity|reflexivity].
  - right. right. right. right. left. reflexivity.
Defined.

(** The identity ["NoColonHere"]. *)
Lemma identity_without_colon_witness :
  let rt := demo_runtime (Ok demo_feed_no_colon) in
  let r := @mkRawCarPark rt (Some "NoColonHere") (Some "carParkFull") 1 2 50%Z in
  _transform_data_to_car_parks [r]
    = Raise (Exn "IndexError" "list index out of range"
               [Frame "_transform_data_to_car_parks" 148]) /\
  fst (@refresh rt demo_config net_ok (@init rt demo_config)) = [] /\
  success (snd (@refresh rt demo_config net_ok (@init rt demo_config)))
    = Some false.
Proof.
  cbv zeta.
  destruct (@identity_without_colon (demo_runtime (Ok demo_feed_no_colon))
              demo_config
              (@mkRawCarPark (demo_runtime (Ok demo_feed_no_colon))
                 (Some "NoColonHere") (Some "carParkFull") 1 2 50%Z)
              "NoColonHere" eq_refl eq_refl) as (H1 & _ & _ & H4).
  split; [exact H1|].
  apply (H4 net_ok (@init _ demo_config) "<d2LogicalModel/>"
           [@mkRawCarPark (demo_runtime (Ok demo_feed_no_colon))
              (Some "NoColonHere") (Some "carParkFull") 1 2 50%Z]
           demo_pub).
  - reflexivity.
  - reflexivity.
  - left. reflexivity.
Defined.

(** The feed of two records, fetched and parsed. *)
Lemma refresh_success_witness :
  let rt := demo_runtime (Ok demo_feed) in
  let r := @refresh rt demo_config net_ok (@init rt demo_config) in
  fst r
  = [ @mkCarPark rt "CPN0015" "Harford, Ipswich Road, Norwich"
        (Some "enoughSpacesAvailable") 120 380 500 24%Z;
      @mkCarPark rt "CPX9" "SOME NORWICH" (Some "carParkFull") 80 0 80
        100%Z ] /\
  success (snd r) = Some true /\
  error_message (snd r) = Some "" /\
  traceback (snd r) = TbStr "" /\
  tb_items (traceback (snd r)) = Some [] /\
  last_updated (snd r) = Some demo_pub.
Proof.
  cbv zeta.
  apply (@refresh_success (demo_runtime (Ok demo_feed)) demo_config net_ok
           (@init _ demo_config) "<d2LogicalModel/>"
           [ @mkRawCarPark (demo_runtime (Ok demo_feed))
               (Some "Harford, Ipswich Road, Nor:CPN0015")
               (Some "enoughSpacesAvailable") 120 500 24%Z;
             @mkRawCarPark (demo_runtime (Ok demo_feed))
               (Some "SOME NORW:CPX9") (Some "carParkFull") 80 80 100%Z ]
           demo_pub).
  - reflexivity.
  - reflexivity.
  - reflexivity.
Defined.

(** The feed without situations. *)
Lemma empty_feed_succeeds_witness :
  let rt := demo_runtime (Ok demo_feed_empty) in
  let self := @init rt demo_config in
  @_parse_xml_data rt demo_config "<d2LogicalModel/>" (namespace self)
    = Ok ([], demo_pub) /\
  fst (@refresh rt demo_config net_ok self) = [] /\
  success (snd (@refresh rt demo_config net_ok self)) = Some true /\
  error_message (snd (@refresh rt demo_config net_ok self)) = Some "".
Proof.
  cbv zeta.
  apply (@empty_feed_succeeds (demo_runtime (Ok demo_feed_empty)) demo_config
           net_ok (@init _ demo_config) demo_uri "<d2LogicalModel/>"
           demo_feed_empty (leaf demo_uri "publicationTime" demo_pub)
           demo_pub).
  - reflexivity.
  - reflexivity.
  - reflexivity.
  - reflexivity.
  - reflexivity.
  - intros r (pp & s & Hpp & _ & Hs & Htag & _).
    cbn in Hpp. destruct Hpp as [<-|[<-|[]]]; cbn in Hs.
    + destruct Hs as [<-|[]]. discriminate Htag.
    + destruct Hs.
Defined.

(** C5 fails on the code: in ["Nor Rd"] nothing stands at the end of the
    name, and the repair of the source changes the name all the same, where
    the repair of the words of the claim leaves it. *)
Lemma repair_is_not_trailing_only :
  repair_name "Nor Rd" = "Norwich Rd" /\
  repair_trailing "Nor Rd" = "Nor Rd" /\
  repair_name "Nor Rd, Nor" = "Norwich Rd, Norwich" /\
  repair_trailing "Nor Rd, Nor" = "Nor Rd, Norwich".
Proof. repeat split. Qed.

(** C8 fails on the code: after a call that succeeded, a call that finds the
    network down leaves in [last_updated] the publication time of the
    earlier call, where the same failing call on a new instance leaves it
    unset. *)
Lemma stale_last_updated :
  let rt := demo_runtime (Ok demo_feed) in
  let new := @init rt demo_config in
  let after_success := snd (@refresh rt demo_config net_ok new) in
  success after_success = Some true /\
  last_updated after_success = Some demo_pub /\
  success (snd (@refresh rt demo_config net_down after_success))
    = Some false /\
  last_updated (snd (@refresh rt demo_config net_down after_success))
    = Some demo_pub /\
  last_updated (snd (@refresh rt demo_config net_down new)) = None.
Proof. repeat split. Qed.

(** C4 fails on the code: a text node that is absent does not always fail
    the parse. With a carParkStatus element without text the parser returns
    the record with the status [None] and [refresh] reports a success with
    one car park; with a carParkIdentity element without text the parser
    still returns the record, and it is the transformer that fails. *)
Lemma absent_text_passes_the_parser :
  let rt := demo_runtime (Ok demo_feed_no_status_text) in
  let rt' := demo_runtime (Ok demo_feed_no_identity_text) in
  @_parse_xml_data rt demo_config "<d2LogicalModel/>"
    (@XML_NAMESPACE demo_config)
  = Ok ([@mkRawCarPark rt (Some "St Andrews:CPN0001") None 10 40 25%Z],
        demo_pub) /\
  @refresh rt demo_config net_ok (@init rt demo_config)
  = ([@mkCarPark rt "CPN0001" "St Andrews" None 10 30 40 25%Z],
     @mkSelf rt (@XML_URL demo_config) (@XML_NAMESPACE demo_config)
       (Some demo_pub) (Some true) (Some "") (TbStr "")) /\
  @_parse_xml_data rt' demo_config "<d2LogicalModel/>"
    (@XML_NAMESPACE demo_config)
  = Ok ([@mkRawCarPark rt' None (Some "carParkFull") 10 40 25%Z], demo_pub) /\
  error_message (snd (@refresh rt' demo_config net_ok (@init rt' demo_config)))
  = Some "AttributeError: 'NoneType' object has no attribute 'split'".
Proof. repeat split. Qed.

(* ================================================================== *)
(** * More on the name repair *)

Lemma sub_norwich_Norwic (t : string) :
  boundary t = true ->
  sub_norwich ("Norwic" ++ t) = ("Norwich" ++ sub_norwich t)%string.
Proof.
  intros Ht.
  change (sub_norwich ("Norwic" ++ t))
    with (sub_norwich (String "N" ("orwic" ++ t))).
  rewrite sub_norwich_unfold.
  change (String "N" ("orwic" ++ t)) with ("Norwic" ++ t)%string.
  now rewrite norwich_len_Norwic.
Qed.

Lemma sub_norwich_Nor (t : string) :
  boundary t = true ->
  sub_norwich ("Nor" ++ t) = ("Norwich" ++ sub_norwich t)%string.
Proof.
  intros Ht.
  change (sub_norwich ("Nor" ++ t))
    with (sub_norwich (String "N" ("or" ++ t))).
  rewrite sub_norwich_unfold.
  change (String "N" ("or" ++ t)) with ("Nor" ++ t)%string.
  now rewrite norwich_len_Nor.
Qed.

Lemma sub_norw_NORW (t : string) :
  boundary t = true ->
  sub_norw ("NORW" ++ t) = ("NORWICH" ++ sub_norw t)%string.
Proof.
  intros Ht.
  change (sub_norw ("NORW" ++ t)) with (sub_norw (String "N" ("ORW" ++ t))).
  rewrite sub_norw_unfold.
  change (String "N" ("ORW" ++ t)) with ("NORW" ++ t)%string.
  now rewrite norw_len_NORW.
Qed.

Lemma sub_norwich_skip (c : ascii) (t : string) :
  norwich_len (String c t) = None ->
  sub_norwich (String c t) = String c (sub_norwich t).
Proof. intros H. now rewrite sub_norwich_unfold, H. Qed.

Lemma sub_norw_skip (c : ascii) (t : string) :
  norw_len (String c t) = None ->
  sub_norw (String c t) = String c (sub_norw t).
Proof. intros H. now rewrite sub_norw_unfold, H. Qed.

Lemma length_append (s t : string) :
  String.length (s ++ t) = String.length s + String.length t.
Proof. induction s as [|c s IH]; simpl; [reflexivity|now rewrite IH]. Qed.

(** Induction along the scan of the first substitution. *)
Lemma sub_norwich_scan (R : string -> string -> Prop) :
  R "" "" ->
  (forall t u, boundary t = true -> R t u ->
     R ("Norwic" ++ t)%string ("Norwich" ++ u)%string) ->
  (forall t u, boundary t = true -> R t u ->
     R ("Nor" ++ t)%string ("Norwich" ++ u)%string) ->
  (forall c t u, norwich_len (String c t) = None -> R t u ->
     R (String c t) (String c u)) ->
  forall s, R s (sub_norwich s).
Proof.
  intros H0 H6 H3 Hc s.
  remember (String.length s) as k eqn:Hk.
  assert (Hle : String.length s <= k) by lia. clear Hk.
  revert s Hle; induction k as [|k IH]; intros [|c t] Hle; simpl in Hle;
    try exact H0; try lia.
  destruct (norwich_len (String c t)) as [n|] eqn:E.
  - apply norwich_len_cases in E as (u & Hu & [[_ E]|[_ E]]); rewrite E.
    + rewrite sub_norwich_Norwic by assumption. apply H6; [assumption|].
      apply IH. apply (f_equal String.length) in E.
      rewrite length_append in E. simpl in E. lia.
    + rewrite sub_norwich_Nor by assumption. apply H3; [assumption|].
      apply IH. apply (f_equal String.length) in E.
      rewrite length_append in E. simpl in E. lia.
  - rewrite sub_norwich_skip by assumption. apply Hc; [assumption|].
    apply IH. lia.
Qed.

(** Induction along the scan of the second substitution. *)
Lemma sub_norw_scan (R : string -> string -> Prop) :
  R "" "" ->
  (forall t u, boundary t = true -> R t u ->
     R ("NORW" ++ t)%string ("NORWICH" ++ u)%string) ->
  (forall c t u, norw_len (String c t) = None -> R t u ->
     R (String c t) (String c u)) ->
  forall s, R s (sub_norw s).
Proof.
  intros H0 H4 Hc s.
  remember (String.length s) as k eqn:Hk.
  assert (Hle : String.length s <= k) by lia. clear Hk.
  revert s Hle; induction k as [|k IH]; intros [|c t] Hle; simpl in Hle;
    try exact H0; try lia.
  destruct (norw_len (String c t)) as [n|] eqn:E.
  - apply norw_len_cases in E as (u & Hu & _ & E); rewrite E.
    rewrite sub_norw_NORW by assumption. apply H4; [assumption|].
    apply IH. apply (f_equal String.length) in E.
    rewrite length_append in E. simpl in E. lia.
  - rewrite sub_norw_skip by assumption. apply Hc; [assumption|].
    apply IH. lia.
Qed.

Lemma subseq_trans (s t u : string) : subseq s t -> subseq t u -> subseq s u.
Proof.
  intros Hst Htu. revert s Hst.
  induction Htu as [|c t u _ IH|c t u _ IH]; intros s Hst.
  - assumption.
  - inversion Hst; subst.
    + apply subseq_keep. now apply IH.
    + apply subseq_insert. now apply IH.
  - apply subseq_insert. now apply IH.
Qed.

Lemma subseq_length (s t : string) :
  subseq s t -> String.length s <= String.length t.
Proof. induction 1; simpl; lia. Qed.

(** What is as long as the text it was cut from is that text. *)
Lemma subseq_same_length (s t : string) :
  subseq s t -> String.length s = String.length t -> s = t.
Proof.
  induction 1 as [|c s t H IH|c s t H IH]; simpl; intros E.
  - reflexivity.
  - f_equal. apply IH. lia.
  - apply subseq_length in H. lia.
Qed.

Lemma subseq_sub_norwich (s : string) : subseq s (sub_norwich s).
Proof.
  apply sub_norwich_scan with (R := subseq).
  - constructor.
  - intros t u _ H. cbn [append]. now repeat constructor.
  - intros t u _ H. cbn [append]. now repeat constructor.
  - intros c t u _ H. now constructor.
Qed.

Lemma subseq_sub_norw (s : string) : subseq s (sub_norw s).
Proof.
  apply sub_norw_scan with (R := subseq).
  - constructor.
  - intros t u _ H. cbn [append]. now repeat constructor.
  - intros c t u _ H. now constructor.
Qed.

Lemma sub_norwich_fixed (s : string) :
  sub_norwich s = s -> nowhere norwich_len s.
Proof.
  enough (H : subseq s (sub_norwich s) /\
              (sub_norwich s = s -> nowhere norwich_len s)) by apply H.
  apply sub_norwich_scan
    with (R := fun s r => subseq s r /\ (r = s -> nowhere norwich_len s)).
  - split; [constructor|]. intros _. exact I.
  - intros t u _ [H _]. split; [cbn [append]; now repeat constructor|].
    intros E. apply (f_equal String.length) in E.
    apply subseq_length in H. cbn in E. lia.
  - intros t u _ [H _]. split; [cbn [append]; now repeat constructor|].
    intros E. apply (f_equal String.length) in E.
    apply subseq_length in H. cbn in E. lia.
  - intros c t u Hc [H IH]. split; [now constructor|].
    intros E. injection E as E. split; [assumption|now apply IH].
Qed.

Lemma sub_norw_fixed (s : string) : sub_norw s = s -> nowhere norw_len s.
Proof.
  enough (H : subseq s (sub_norw s) /\
              (sub_norw s = s -> nowhere norw_len s)) by apply H.
  apply sub_norw_scan
    with (R := fun s r => subseq s r /\ (r = s -> nowhere norw_len s)).
  - split; [constructor|]. intros _. exact I.
  - intros t u _ [H _]. split; [cbn [append]; now repeat constructor|].
    intros E. apply (f_equal String.length) in E.
    apply subseq_length in H. cbn in E. lia.
  - intros c t u Hc [H IH]. split; [now constructor|].
    intros E. injection E as E. split; [assumption|now apply IH].
Qed.

Lemma colon_free_sub_norwich (s : string) :
  colon_free (sub_norwich s) = colon_free s.
Proof.
  apply sub_norwich_scan with (R := fun s r => colon_free r = colon_free s).
  - reflexivity.
  - intros t u _ H. cbn. exact H.
  - intros t u _ H. cbn. exact H.
  - intros c t u _ H. cbn. now rewrite H.
Qed.

Lemma colon_free_sub_norw (s : string) :
  colon_free (sub_norw s) = colon_free s.
Proof.
  apply sub_norw_scan with (R := fun s r => colon_free r = colon_free s).
  - reflexivity.
  - intros t u _ H. cbn. exact H.
  - intros c t u _ H. cbn. now rewrite H.
Qed.

Lemma colon_free_repair_name (s : string) :
  colon_free (repair_name s) = colon_free s.
Proof.
  rewrite repair_name_eq. now rewrite colon_free_sub_norw, colon_free_sub_norwich.
Qed.

(** X1. The name repair only inserts characters: the name that goes in is
    what is left of the repaired name when some of its characters are taken
    out, so no character of the name is removed, changed or moved, and the
    repaired name is at least as long. *)
Theorem repair_name_only_inserts (name : string) :
  subseq name (repair_name name) /\
  String.length name <= String.length (repair_name name).
Proof.
  assert (H : subseq name (repair_name name)).
  { rewrite repair_name_eq.
    apply subseq_trans with (t := sub_norwich name).
    - apply subseq_sub_norwich.
    - apply subseq_sub_norw. }
  split; [exact H|now apply subseq_length].
Qed.

(** X2. The name repair leaves a name as it is exactly when no ["Nor"] or
    ["Norwic"] and no ["NORW"] of the name is followed by a word boundary. *)
Theorem repair_name_fixed_iff (name : string) :
  repair_name name = name <->
  nowhere norwich_len name /\ nowhere norw_len name.
Proof.
  rewrite repair_name_eq. split.
  - intros E.
    pose proof (subseq_sub_norwich name) as H1.
    pose proof (subseq_sub_norw (sub_norwich name)) as H2.
    assert (E1 : sub_norwich name = name).
    { symmetry. apply subseq_same_length; [assumption|].
      apply subseq_length in H1, H2. rewrite E in H2. lia. }
    rewrite E1 in E. split; [now apply sub_norwich_fixed|].
    now apply sub_norw_fixed.
  - intros [H1 H2].
    assert (E1 : sub_norwich name = name)
      by exact (sub_nowhere _ _ _ match_at_norwich name H1).
    rewrite E1. exact (sub_nowhere _ _ _ match_at_norw name H2).
Qed.

(* ================================================================== *)
(** * More on the transformer *)

Section TransformerMore.

Context {rt : Runtime}.

(** The car park that the loop body makes of a raw record whose identity
    has the parts [a] and [b] in front. *)
Lemma transform_one_missing (fn : string) (l1 l2 l3 : nat) (r : RawCarPark)
  (acc : list CarPark) :
  identity r = None ->
  transform_one fn l1 l2 l3 r acc
  = Raise (Exn "AttributeError" "'NoneType' object has no attribute 'split'"
             [Frame fn l1]).
Proof. intros H. unfold transform_one, split_. now rewrite H. Qed.

(** What the loop body does with a record: one of three things, the same
    for every accumulator. *)
Lemma transform_one_cases (fn : string) (l1 l2 l3 : nat) (r : RawCarPark) :
  (splittable r /\
   exists c, transformed r c /\
     forall acc, transform_one fn l1 l2 l3 r acc = Ok (acc ++ [c])) \/
  (~ splittable r /\
   exists e, forall acc, transform_one fn l1 l2 l3 r acc = Raise e).
Proof.
  destruct (identity r) as [s|] eqn:Hs.
  - destruct (colon_free s) eqn:Hc.
    + right. split.
      * intros (s' & Hs' & Hc'). congruence.
      * eexists. intros acc. now apply transform_one_no_colon with (s := s).
    + left. split; [now exists s|].
      destruct (split_two s Hc) as (a & b & Hab & H0 & H1).
      exists (mkCarPark b (repair_name a) (status r) (occupied_spaces r)
                (total_capacity r - occupied_spaces r) (total_capacity r)
                (occupancy r)).
      split.
      * exists s, a, b. split; [exact Hs|]. split; [exact Hab|].
        repeat split.
      * intros acc. now apply transform_one_ok with (s := s).
  - right. split.
    + intros (s' & Hs' & _). congruence.
    + eexists. intros acc. now apply transform_one_missing.
Qed.

Lemma transform_inv (fn : string) (l1 l2 l3 : nat) (l : list RawCarPark)
  (acc out : list CarPark) :
  for_each l (transform_one fn l1 l2 l3) acc = Ok out ->
  Forall splittable l /\
  exists outs, out = acc ++ outs /\ Forall2 transformed l outs.
Proof.
  revert acc. induction l as [|r l IH]; intros acc; cbn [for_each].
  - intros E. injection E as <-. split; [constructor|].
    exists []. now rewrite app_nil_r.
  - destruct (transform_one_cases fn l1 l2 l3 r)
      as [(Hr & c & Hc & E)|(_ & e & E)]; rewrite E; cbn [bind];
      [|discriminate].
    intros H. apply IH in H as (Hl & outs & -> & F).
    split; [now constructor|].
    exists (c :: outs). rewrite <- app_assoc. split; [reflexivity|].
    now constructor.
Qed.

(** The accumulator of the loop is only appended to. *)
Lemma transform_acc (fn : string) (l1 l2 l3 : nat) (l : list RawCarPark)
  (acc : list CarPark) :
  for_each l (transform_one fn l1 l2 l3) acc
  = (outs <- for_each l (transform_one fn l1 l2 l3) [] ;; Ok (acc ++ outs)).
Proof.
  revert acc. induction l as [|r l IH]; intros acc; cbn [for_each bind].
  - now rewrite app_nil_r.
  - destruct (transform_one_cases fn l1 l2 l3 r)
      as [(_ & c & _ & E)|(_ & e & E)]; rewrite !E; cbn [bind app];
      [|reflexivity].
    rewrite (IH (acc ++ [c])), (IH [c]).
    destruct (for_each l (transform_one fn l1 l2 l3) []); cbn [bind];
      [|reflexivity].
    now rewrite <- app_assoc.
Qed.

Lemma for_each_app {A S} (l l' : list A) (body : A -> S -> result S)
  (acc : S) :
  for_each (l ++ l') body acc
  = (acc' <- for_each l body acc ;; for_each l' body acc').
Proof.
  revert acc. induction l as [|a l IH]; intros acc; cbn [app for_each bind];
    [reflexivity|].
  destruct (body a acc); cbn [bind]; [apply IH|reflexivity].
Qed.

(** X3. The transformer returns a list only when every identity is there
    and has a colon, and the list it returns then holds the car parks of the
    raw records one for one, in their order. *)
Theorem transform_success_inv (car_park_data : list RawCarPark)
  (car_parks : list CarPark) :
  _transform_data_to_car_parks car_park_data = Ok car_parks ->
  Forall splittable car_park_data /\
  Forall2 transformed car_park_data car_parks.
Proof.
  intros H. apply transform_inv in H as (Hl & outs & -> & F). now split.
Qed.

(** X4. The transformer stops at the first raw record whose identity is
    absent or has no colon: the exception is the one that this record alone
    gives, whatever comes before and after it. It is the attribute error of
    line 147 for an absent identity and the index error of line 148 for an
    identity without colon. *)
Theorem transform_first_failure (before after : list RawCarPark)
  (r : RawCarPark) :
  Forall splittable before -> ~ splittable r ->
  _transform_data_to_car_parks (before ++ r :: after)
    = _transform_data_to_car_parks [r] /\
  _transform_data_to_car_parks [r]
    = Raise (match identity r with
             | None =>
                 Exn "AttributeError"
                   "'NoneType' object has no attribute 'split'"
                   [Frame "_transform_data_to_car_parks" 147]
             | Some _ =>
                 Exn "IndexError" "list index out of range"
                   [Frame "_transform_data_to_car_parks" 148]
             end).
Proof.
  intros Hb Hr. unfold _transform_data_to_car_parks.
  set (body := transform_one "_transform_data_to_car_parks" 147 148 149).
  assert (E : forall acc, body r acc
              = Raise (match identity r with
                       | None =>
                           Exn "AttributeError"
                             "'NoneType' object has no attribute 'split'"
                             [Frame "_transform_data_to_car_parks" 147]
                       | Some _ =>
                           Exn "IndexError" "list index out of range"
                             [Frame "_transform_data_to_car_parks" 148]
                       end)).
  { intros acc. unfold body. destruct (identity r) as [s|] eqn:Hs.
    - apply transform_one_no_colon with (s := s); [assumption|].
      destruct (colon_free s) eqn:Hc; [reflexivity|].
      exfalso. apply Hr. now exists s.
    - now apply transform_one_missing. }
  split; [|cbn [for_each]; now rewrite E].
  rewrite for_each_app.
  destruct (transform_all "_transform_data_to_car_parks" 147 148 149 _ Hb)
    as (out & Eb & _).
  fold body in Eb. rewrite Eb. cbn [bind for_each]. now rewrite !E.
Qed.

(** X5. The transformer treats the raw records one by one: the result for
    two lists put end to end is the result for the first followed by the
    result for the second, and the first exception of the two when one of
    them raises. *)
Theorem transform_app (l l' : list RawCarPark) :
  _transform_data_to_car_parks (l ++ l')
  = (out <- _transform_data_to_car_parks l ;;
     out' <- _transform_data_to_car_parks l' ;;
     Ok (out ++ out')).
Proof.
  unfold _transform_data_to_car_parks. rewrite for_each_app.
  destruct (for_each l _ []) as [out|e]; cbn [bind]; [|reflexivity].
  apply transform_acc.
Qed.

(** X6. In every car park that the transformer returns the code and the
    name have no colon, the name needs no further repair, and the occupied
    and the remaining spaces add up to the capacity. *)
Theorem transform_output_invariants (car_park_data : list RawCarPark)
  (car_parks : list CarPark) :
  _transform_data_to_car_parks car_park_data = Ok car_parks ->
  Forall
    (fun c =>
       colon_free (code c) = true /\
       colon_free (name c) = true /\
       repair_name (name c) = name c /\
       (cp_occupied_spaces c + remaining_spaces c = cp_total_capacity c)%Z)
    car_parks.
Proof.
  intros H. apply transform_inv in H as (_ & outs & -> & F). cbn [app].
  induction F as [|r c l outs Hc _ IH]; constructor; [|exact IH].
  destruct Hc as (s & a & b & _ & (Ha & Hb & _) & -> & -> & _ & Ho & Ht & _ & Hr).
  repeat split.
  - exact Hb.
  - now rewrite colon_free_repair_name.
  - apply repair_name_idempotent.
  - rewrite Ho, Ht, Hr. lia.
Qed.

End TransformerMore.

(* ================================================================== *)
(** * More on [refresh] *)

Section RefreshMore.

Context {rt : Runtime} {cfg : Config}.

Lemma message_not_empty (e : exn) :
  (exn_type e ++ ": " ++ exn_str e)%string <> "".
Proof. destruct (exn_type e); discriminate. Qed.

(** X7. After every call of [refresh] the attributes agree with each other
    and with the list returned. Either [success] is true, [error_message]
    and [traceback] are the empty string and [last_updated] is set; or
    [success] is false, the list returned is empty, [error_message] is not
    empty and [traceback] is a list that starts with the entry of line 174,
    177 or 180 of [refresh]. The URL and the namespace mapping are never
    changed. *)
Theorem refresh_attributes_agree (net : string -> fetched)
  (self : LiveParkingNorwich) :
  let out := fst (refresh net self) in
  let self' := snd (refresh net self) in
  url self' = url self /\
  namespace self' = namespace self /\
  (success self' = Some true /\
   error_message self' = Some "" /\
   traceback self' = TbStr "" /\
   (exists ts, last_updated self' = Some ts)
   \/
   success self' = Some false /\
   out = [] /\
   (exists msg, error_message self' = Some msg /\ msg <> "") /\
   (exists n rest,
      traceback self' = TbList (format_entry (Frame "refresh" n) :: rest) /\
      (n = 174 \/ n = 177 \/ n = 180))).
Proof.
  cbv zeta. unfold refresh.
  destruct (_retrieve_xml_data net (url self)) as [xml|e]; cbn [line].
  2:{ cbn. split; [reflexivity|]. split; [reflexivity|]. right.
      split; [reflexivity|]. split; [reflexivity|].
      split; [eexists; split; [reflexivity|apply message_not_empty]|].
      exists 174. eexists. split; [reflexivity|auto]. }
  destruct (_parse_xml_data xml (namespace self)) as [[l ts]|e]; cbn [line].
  2:{ cbn. split; [reflexivity|]. split; [reflexivity|]. right.
      split; [reflexivity|]. split; [reflexivity|].
      split; [eexists; split; [reflexivity|apply message_not_empty]|].
      exists 177. eexists. split; [reflexivity|auto]. }
  destruct (_transform_data_to_car_parks l) as [out|e]; cbn [line].
  - cbn. split; [reflexivity|]. split; [reflexivity|]. left.
    repeat split. now exists ts.
  - cbn. split; [reflexivity|]. split; [reflexivity|]. right.
    split; [reflexivity|]. split; [reflexivity|].
    split; [eexists; split; [reflexivity|apply message_not_empty]|].
    exists 180. eexists. split; [reflexivity|auto].
Qed.

(** X8. Under the same answers of the network a second call of [refresh]
    returns the same list and leaves the attributes as the first call left
    them. *)
Theorem refresh_twice (net : string -> fetched) (self : LiveParkingNorwich) :
  refresh net (snd (refresh net self)) = refresh net self.
Proof.
  unfold refresh.
  destruct (line "refresh" 174 (_retrieve_xml_data net (url self)))
    as [xml|e] eqn:E1.
  2:{ cbn [snd on_exception url namespace last_updated]. now rewrite E1. }
  destruct (line "refresh" 177 (_parse_xml_data xml (namespace self)))
    as [[l ts]|e] eqn:E2.
  2:{ cbn [snd on_exception url namespace last_updated].
      now rewrite E1, E2. }
  cbn [url namespace last_updated success error_message traceback].
  destruct (line "refresh" 180 (_transform_data_to_car_parks l))
    as [out|e] eqn:E3;
    cbn [snd on_exception url namespace last_updated];
    now rewrite E1, E2, E3.
Qed.

(** X9. What a failure of the fetch leaves in the attributes. A [URLError]
    is replaced by one whose text names the URL and the reason, and the
    traceback has the two entries of [refresh] and of the re-raise; any
    other exception of [urlopen] or of [read] keeps its class, its message
    and its own traceback entries below those of lines 90 or 91. In each
    case [last_updated] keeps its value. *)
Theorem refresh_fetch_failure (net : string -> fetched)
  (self : LiveParkingNorwich) :
  let failed msg tb :=
    refresh net self
    = ([], mkSelf (url self) (namespace self) (last_updated self) (Some false)
             (Some msg) (TbList (format_tb tb))) in
  match net (url self) with
  | Fetched xml_data => _retrieve_xml_data net (url self) = Ok xml_data
  | UrlError reason =>
      failed
        ("URLError: <urlopen error Failed to retrieve XML data from "
           ++ url self ++ ": " ++ reason ++ ">")%string
        [Frame "refresh" 174; Frame "_retrieve_xml_data" 94]
  | OpenFailed e =>
      failed (exn_type e ++ ": " ++ exn_str e)%string
        (Frame "refresh" 174 :: Frame "_retrieve_xml_data" 90 :: exn_tb e)
  | ReadFailed e =>
      failed (exn_type e ++ ": " ++ exn_str e)%string
        (Frame "refresh" 174 :: Frame "_retrieve_xml_data" 91 :: exn_tb e)
  end.
Proof.
  cbv zeta. unfold refresh, _retrieve_xml_data.
  destruct (net (url self)); reflexivity.
Qed.

End RefreshMore.

(* ================================================================== *)
(** * More on the parser *)

Lemma for_each_inv {A B} (R : A -> list B -> Prop) (l : list A)
  (body : A -> list B -> result (list B)) :
  (forall x acc out, In x l -> body x acc = Ok out ->
     exists ys, out = acc ++ ys /\ R x ys) ->
  forall acc out, for_each l body acc = Ok out ->
  exists yss, out = acc ++ List.concat yss /\ Forall2 R l yss.
Proof.
  induction l as [|a l IH]; intros H acc out; cbn [for_each].
  - intros E. injection E as <-. exists []. cbn. now rewrite app_nil_r.
  - destruct (body a acc) as [acc'|e] eqn:Ea; cbn [bind]; [|discriminate].
    intros E.
    destruct (H a acc acc' (or_introl eq_refl) Ea) as (ys & -> & Hys).
    destruct (IH (fun x acc out Hx => H x acc out (or_intror Hx)) _ _ E)
      as (yss & -> & F).
    exists (ys :: yss). cbn. rewrite <- app_assoc. split; [reflexivity|].
    now constructor.
Qed.

Lemma Forall2_flat_map {A B C} (R : B -> C -> Prop) (f : A -> list B)
  (l : list A) (yss : list (list C)) :
  Forall2 (fun x ys => Forall2 R (f x) ys) l yss ->
  Forall2 R (flat_map f l) (List.concat yss).
Proof.
  induction 1 as [|x ys l yss H _ IH]; cbn; [constructor|].
  now apply Forall2_app.
Qed.

Section ParserMore.

Context {rt : Runtime} {cfg : Config}.

(** Without the prefix in the mapping the first [find] raises. *)
Lemma parse_without_prefix (xml_data : string) (ns : namespaces)
  (root : element) :
  lookup "d2lm" ns = None ->
  fromstring xml_data = Ok root ->
  _parse_xml_data xml_data ns
  = Raise (Exn "SyntaxError" "prefix 'd2lm' not found in prefix map"
             (Frame "_parse_xml_data" 111
                :: prefix_error_tb "find" path_publication_time)).
Proof.
  intros Hns Hroot. unfold _parse_xml_data.
  rewrite Hroot. cbn [line bind]. unfold find, path_publication_time.
  cbn [iterfind_from select bind].
  unfold qualify. rewrite Hns. reflexivity.
Qed.

Variables (ns : namespaces) (uri : string).
Hypothesis d2lm : lookup "d2lm" ns = Some uri.

Lemma parse_record_inv (r : element) (acc out : list RawCarPark) :
  parse_record ns r acc = Ok out ->
  exists raw, out = acc ++ [raw] /\ reads uri r raw.
Proof.
  unfold parse_record, path_identity, path_status, path_occupied,
    path_capacity, path_occupancy.
  rewrite !(find_child ns uri d2lm).
  destruct (first_child (qname uri "carParkIdentity") r) as [c1|] eqn:H1;
    cbn [bind line text_of raise]; [|discriminate].
  destruct (first_child (qname uri "carParkStatus") r) as [c2|] eqn:H2;
    cbn [bind line text_of raise]; [|discriminate].
  destruct (first_child (qname uri "occupiedSpaces") r) as [c3|] eqn:H3;
    cbn [bind line text_of raise]; [|discriminate].
  destruct (int (text c3)) as [n|e3] eqn:E3; cbn [bind line]; [|discriminate].
  destruct (first_child (qname uri "totalCapacity") r) as [c4|] eqn:H4;
    cbn [bind line text_of raise]; [|discriminate].
  destruct (int (text c4)) as [m|e4] eqn:E4; cbn [bind line]; [|discriminate].
  destruct (first_child (qname uri "carParkOccupancy") r) as [c5|] eqn:H5;
    cbn [bind line text_of raise]; [|discriminate].
  destruct (float_ (text c5)) as [x|e5] eqn:E5; cbn [bind line];
    [|discriminate].
  intros E. injection E as <-. eexists. split; [reflexivity|].
  exists c1, c2, c3, c4, c5. cbn. now repeat split.
Qed.

Lemma parse_record_reads (r : element) (raw : RawCarPark)
  (acc : list RawCarPark) :
  reads uri r raw -> parse_record ns r acc = Ok (acc ++ [raw]).
Proof.
  intros (c1 & c2 & c3 & c4 & c5 & H1 & H2 & H3 & H4 & H5 & A & B & C & D & E).
  rewrite (parse_record_ok ns uri d2lm r c1 c2 c3 c4 c5 _ _ _ acc
             H1 H2 H3 H4 H5 C D E).
  destruct raw; cbn in *. now subst.
Qed.

(** The loops of the parser over the records that they visit. *)
Lemma parse_loops_inv (root : element) (out : list RawCarPark) :
  for_each
    (flat_map (fun pp => with_tag (qname uri "situation") (children pp))
       (with_tag (qname uri "payloadPublication") (descendants root)))
    (fun situation acc =>
       for_each (with_tag (qname uri "situationRecord") (children situation))
         (parse_record ns) acc)
    [] = Ok out ->
  Forall2 (reads uri) (visited_records uri root) out.
Proof.
  intros E. unfold visited_records.
  apply (for_each_inv
           (fun s ys =>
              Forall2 (reads uri)
                (with_tag (qname uri "situationRecord") (children s)) ys))
    in E as (yss & -> & F).
  - cbn [app]. now apply Forall2_flat_map.
  - intros s acc out' _ E'.
    apply (for_each_inv (fun r ys => exists raw, ys = [raw] /\ reads uri r raw))
      in E' as (yss & -> & F).
    + eexists. split; [reflexivity|]. now apply Forall2_singletons.
    + intros r acc' out'' _ Er.
      apply parse_record_inv in Er as (raw & -> & Hraw).
      exists [raw]. split; [reflexivity|]. now exists raw.
Qed.

Lemma parse_loops_reads (l : list element) (raws acc : list RawCarPark) :
  Forall2 (reads uri) l raws ->
  for_each l (parse_record ns) acc = Ok (acc ++ raws).
Proof.
  intros F. revert acc. induction F as [|r raw l raws Hr _ IH]; intros acc.
  - cbn. now rewrite app_nil_r.
  - cbn [for_each]. rewrite (parse_record_reads r raw acc Hr). cbn [bind].
    rewrite IH, <- app_assoc. reflexivity.
Qed.

Lemma Forall2_flat_map_inv {A B C} (R : B -> C -> Prop) (f : A -> list B)
  (l : list A) (out : list C) :
  Forall2 R (flat_map f l) out ->
  exists yss, out = List.concat yss /\
              Forall2 (fun x ys => Forall2 R (f x) ys) l yss.
Proof.
  revert out. induction l as [|a l IH]; intros out; cbn [flat_map].
  - intros F. inversion F; subst. exists []. split; [reflexivity|constructor].
  - intros F. apply Forall2_app_inv_l in F as (ys & out' & F1 & F2 & ->).
    destruct (IH _ F2) as (yss & -> & Fs).
    exists (ys :: yss). split; [reflexivity|now constructor].
Qed.

Lemma parse_situation_loops_reads (sits : list element)
  (raws acc : list RawCarPark) :
  Forall2 (reads uri)
    (flat_map
       (fun s => with_tag (qname uri "situationRecord") (children s)) sits)
    raws ->
  for_each sits
    (fun situation acc =>
       for_each (with_tag (qname uri "situationRecord") (children situation))
         (parse_record ns) acc)
    acc = Ok (acc ++ raws).
Proof.
  intros F. apply Forall2_flat_map_inv in F as (yss & -> & Fs).
  revert acc. induction Fs as [|s ys sits yss Hs _ IH]; intros acc.
  - cbn. now rewrite app_nil_r.
  - cbn [for_each List.concat]. rewrite (parse_loops_reads _ _ acc Hs).
    cbn [bind]. rewrite IH, <- app_assoc. reflexivity.
Qed.

Lemma parse_ok_iff (xml_data : string) (root : element)
  (car_park_data : list RawCarPark) (ts : datetime) :
  fromstring xml_data = Ok root ->
  (_parse_xml_data xml_data ns = Ok (car_park_data, ts) <->
   (exists e,
      hd_error (with_tag (qname uri "publicationTime") (descendants root))
        = Some e /\
      strptime (text e) DATE_FORMAT = Ok ts) /\
   Forall2 (reads uri) (visited_records uri root) car_park_data).
Proof.
  intros Hroot. rewrite (parse_steps ns uri d2lm _ _ Hroot). split.
  - destruct (hd_error _) as [e|]; cbn [text_of line bind raise];
      [|discriminate].
    destruct (strptime (text e) DATE_FORMAT) as [ts'|x] eqn:Hts;
      cbn [line bind]; [|discriminate].
    destruct (for_each _ _ []) as [out|x] eqn:Hl; cbn [bind]; [|discriminate].
    intros E. injection E as <- <-.
    split; [now exists e|]. now apply parse_loops_inv.
  - intros [(e & He & Hts) F]. rewrite He. cbn [text_of line bind].
    rewrite Hts. cbn [line bind].
    unfold visited_records in F.
    now rewrite (parse_situation_loops_reads _ _ [] F).
Qed.

(** X10. For every document the parser returns a list and a timestamp
    exactly when the first publicationTime below the root, in document order,
    has a text that [strptime] turns into the timestamp with the configured
    format, and the list holds, for the situationRecord elements in the
    order of the two loops, what their five first children say; the texts of
    the identity and of the status may be absent. *)
Theorem parse_success_iff (xml_data : string) (root : element)
  (car_park_data : list RawCarPark) (ts : datetime) :
  fromstring xml_data = Ok root ->
  (_parse_xml_data xml_data ns = Ok (car_park_data, ts) <->
   (exists e,
      hd_error (with_tag (qname uri "publicationTime") (descendants root))
        = Some e /\
      strptime (text e) DATE_FORMAT = Ok ts) /\
   Forall2 (reads uri) (visited_records uri root) car_park_data).
Proof. apply parse_ok_iff. Qed.

(** X11. The publication time is read before any record. When no element
    tagged publicationTime stands below the root the parser raises the
    attribute error of line 111; when the first one has no text it raises
    the type error of line 112; when [strptime] refuses its text the parser
    raises that exception; in each case whatever records the document holds.
    Otherwise the only timestamp that the parser can return is the one of
    that first element. *)
Theorem parse_publication_time_first (xml_data : string) (root : element) :
  fromstring xml_data = Ok root ->
  match hd_error (with_tag (qname uri "publicationTime") (descendants root))
  with
  | None =>
      _parse_xml_data xml_data ns
      = Raise (Exn "AttributeError" "'NoneType' object has no attribute 'text'"
                 [Frame "_parse_xml_data" 111])
  | Some e =>
      match text e with
      | None =>
          _parse_xml_data xml_data ns
          = Raise (Exn "TypeError"
                     "strptime() argument 1 must be str, not None"
                     [Frame "_parse_xml_data" 112])
      | Some t =>
          match strptime_str t DATE_FORMAT with
          | Raise x =>
              _parse_xml_data xml_data ns
              = Raise (through "_parse_xml_data" 112 x)
          | Ok ts =>
              forall l ts', _parse_xml_data xml_data ns = Ok (l, ts') ->
                            ts' = ts
          end
      end
  end.
Proof.
  intros Hroot. rewrite (parse_steps ns uri d2lm _ _ Hroot).
  destruct (hd_error _) as [e|]; cbn [text_of line bind raise];
    [|reflexivity].
  destruct (text e) as [t|]; cbn [strptime line bind raise]; [|reflexivity].
  destruct (strptime_str t DATE_FORMAT) as [ts|x]; cbn [line bind];
    [|reflexivity].
  intros l ts'. destruct (for_each _ _ []); cbn [bind]; [|discriminate].
  intros E. now injection E.
Qed.

End ParserMore.

Section PrefixMissing.

Context {rt : Runtime} {cfg : Config}.

(** X12. When the namespace mapping has no entry for the prefix [d2lm], the
    parser raises the syntax error of the first [find] for every document,
    whatever it holds, and [refresh] reports it and returns nothing. The
    traceback has the entries of [refresh] and of line 111 of the parser,
    and below them those of the functions of [ElementPath] in which the
    error is raised. *)
Theorem prefix_missing_fails (net : string -> fetched)
  (self : LiveParkingNorwich) (xml_data : string) (root : element) :
  lookup "d2lm" (namespace self) = None ->
  net (url self) = Fetched xml_data ->
  fromstring xml_data = Ok root ->
  _parse_xml_data xml_data (namespace self)
    = Raise (Exn "SyntaxError" "prefix 'd2lm' not found in prefix map"
               (Frame "_parse_xml_data" 111
                  :: prefix_error_tb "find" path_publication_time)) /\
  refresh net self
    = ([], mkSelf (url self) (namespace self) (last_updated self) (Some false)
             (Some "SyntaxError: prefix 'd2lm' not found in prefix map")
             (TbList (format_tb
                        (Frame "refresh" 177 :: Frame "_parse_xml_data" 111
                           :: prefix_error_tb "find"
                                path_publication_time)))).
Proof.
  intros Hns Hnet Hroot.
  pose proof (parse_without_prefix _ _ _ Hns Hroot) as Hp.
  split; [exact Hp|].
  unfold refresh. rewrite (retrieve_fetched _ _ _ Hnet). cbn [line].
  now rewrite Hp.
Qed.

End PrefixMissing.

(* ================================================================== *)
(** * The two copies of the pipeline *)

Lemma same_outcome_refl {A} (m : result A) : same_outcome m m.
Proof. destruct m; cbn; auto. Qed.

Lemma same_outcome_line {A} (fn fn' : string) (n n' : nat)
  (m m' : result A) :
  same_outcome m m' -> same_outcome (line fn n m) (line fn' n' m').
Proof. destruct m, m'; cbn; auto. Qed.

Lemma same_outcome_bind {A B} (m m' : result A) (k k' : A -> result B) :
  same_outcome m m' -> (forall a, same_outcome (k a) (k' a)) ->
  same_outcome (bind m k) (bind m' k').
Proof.
  destruct m as [a|e], m' as [a'|e']; cbn; try tauto.
  intros <- H. apply H.
Qed.

Lemma same_outcome_for_each {A S} (l : list A)
  (body body' : A -> S -> result S) (acc : S) :
  (forall x acc, same_outcome (body x acc) (body' x acc)) ->
  same_outcome (for_each l body acc) (for_each l body' acc).
Proof.
  intros H. revert acc. induction l as [|a l IH]; intros acc; cbn [for_each].
  - reflexivity.
  - apply same_outcome_bind; [apply H|exact IH].
Qed.

Section Copies.

Context {rt : Runtime} {cfg : Config}.

Lemma parse_record_copies (ns : namespaces) (r : element)
  (acc : list RawCarPark) :
  same_outcome (helpers_parse_record ns r acc) (parse_record ns r acc).
Proof.
  unfold helpers_parse_record, parse_record.
  repeat (apply same_outcome_bind;
          [apply same_outcome_line, same_outcome_refl|intros ?]).
  apply same_outcome_refl.
Qed.

Lemma parsers_same_outcome (namespace : namespaces) (xml_data : string) :
  same_outcome (parse_xml_data (mkParser namespace DATE_FORMAT) xml_data)
    (_parse_xml_data xml_data namespace).
Proof.
  unfold parse_xml_data, _parse_xml_data.
  cbn [parser_namespace parser_date_format].
  repeat (apply same_outcome_bind;
          [apply same_outcome_line, same_outcome_refl|intros ?]).
  apply same_outcome_bind; [|intros ?; apply same_outcome_refl].
  apply same_outcome_for_each. intros s acc.
  apply same_outcome_bind; [apply same_outcome_line, same_outcome_refl|].
  intros records. apply same_outcome_for_each. intros r acc'.
  apply parse_record_copies.
Qed.

(** X13. The parser of [helpers.py], made with the namespace mapping and the
    date format of the configuration, and the parser of
    [live_parking_norwich.py] return the same records and timestamp for
    every body, and when one raises the other raises an exception of the
    same class with the same message. *)
Theorem parsers_agree (namespace : namespaces) (xml_data : string) :
  same_outcome (parse_xml_data (mkParser namespace DATE_FORMAT) xml_data)
    (_parse_xml_data xml_data namespace).
Proof. apply parsers_same_outcome. Qed.

Lemma retrievers_agree (net : string -> fetched) (u : string) :
  same_outcome (retrieve_xml_data net (mkRetriever u))
    (_retrieve_xml_data net u).
Proof.
  unfold retrieve_xml_data, _retrieve_xml_data. cbn [retriever_url].
  destruct (net u); cbn; auto.
Qed.

Lemma transform_one_agree (r : RawCarPark) (acc : list CarPark) :
  same_outcome
    (transform_one "transform_data_to_car_parks" 93 94 95 r acc)
    (transform_one "_transform_data_to_car_parks" 147 148 149 r acc).
Proof.
  unfold transform_one.
  repeat (apply same_outcome_bind;
          [apply same_outcome_line, same_outcome_refl|intros ?]).
  apply same_outcome_refl.
Qed.

Lemma transformers_agree (l : list RawCarPark) :
  same_outcome (transform_data_to_car_parks l)
    (_transform_data_to_car_parks l).
Proof.
  apply same_outcome_for_each. intros r acc. apply transform_one_agree.
Qed.

(** X14. The three classes of [helpers.py] put one after the other, made
    with the URL, the namespace mapping and the date format that [refresh]
    uses, give what [refresh] gives: when they return car parks and a
    timestamp, [refresh] returns these car parks with [success] true and
    this timestamp in [last_updated]; when one of them raises, [refresh]
    returns nothing, with [success] false and the class and the message of
    that exception in [error_message]. *)
Theorem helpers_chain_is_refresh (net : string -> fetched)
  (self : LiveParkingNorwich) :
  let chain :=
    xml_data <- retrieve_xml_data net (mkRetriever (url self)) ;;
    ' (car_park_data, ts) <-
        parse_xml_data (mkParser (namespace self) DATE_FORMAT) xml_data ;;
    car_parks <- transform_data_to_car_parks car_park_data ;;
    Ok (car_parks, ts) in
  match chain with
  | Ok (car_parks, ts) =>
      fst (refresh net self) = car_parks /\
      success (snd (refresh net self)) = Some true /\
      last_updated (snd (refresh net self)) = Some ts
  | Raise e =>
      fst (refresh net self) = [] /\
      success (snd (refresh net self)) = Some false /\
      error_message (snd (refresh net self))
        = Some (exn_type e ++ ": " ++ exn_str e)%string
  end.
Proof.
  cbv zeta. unfold refresh.
  pose proof (retrievers_agree net (url self)) as H1.
  destruct (retrieve_xml_data net (mkRetriever (url self))) as [xml|e],
    (_retrieve_xml_data net (url self)) as [xml'|e']; cbn in H1;
    try contradiction; cbn [bind line].
  2:{ destruct H1 as [-> ->]. now repeat split. }
  subst xml'.
  pose proof (parsers_same_outcome (namespace self) xml) as H2.
  destruct (parse_xml_data (mkParser (namespace self) DATE_FORMAT) xml)
    as [[l ts]|e],
    (_parse_xml_data xml (namespace self)) as [[l' ts']|e']; cbn in H2;
    try contradiction; cbn [bind line].
  2:{ destruct H2 as [-> ->]. now repeat split. }
  injection H2 as <- <-.
  pose proof (transformers_agree l) as H3.
  destruct (transform_data_to_car_parks l) as [out|e],
    (_transform_data_to_car_parks l) as [out'|e']; cbn in H3;
    try contradiction; cbn [bind line].
  - subst out'. now repeat split.
  - destruct H3 as [-> ->]. now repeat split.
Qed.

End Copies.

(* ================================================================== *)
(** * From the document to the car parks *)

Section EndToEnd.

Context {rt : Runtime} {cfg : Config}.

(** The exceptions of the loop of the transformer. *)
Lemma transform_raises (fn : string) (l1 l2 l3 : nat) (l : list RawCarPark)
  (acc : list CarPark) (e : exn) :
  for_each l (transform_one fn l1 l2 l3) acc = Raise e ->
  e = Exn "AttributeError" "'NoneType' object has no attribute 'split'"
        [Frame fn l1] \/
  e = Exn "IndexError" "list index out of range" [Frame fn l2].
Proof.
  revert acc. induction l as [|r l IH]; intros acc; cbn [for_each];
    [discriminate|].
  destruct (identity r) as [s|] eqn:Hs.
  - destruct (colon_free s) eqn:Hc.
    + rewrite (transform_one_no_colon _ _ _ _ _ _ _ Hs Hc). cbn [bind].
      intros E. injection E as <-. now right.
    + destruct (split_two s Hc) as (a & b & _ & H0 & H1).
      rewrite (transform_one_ok _ _ _ _ _ _ _ _ _ Hs H0 H1). cbn [bind].
      apply IH.
  - rewrite (transform_one_missing _ _ _ _ _ _ Hs). cbn [bind].
    intros E. injection E as <-. now left.
Qed.

(** X15. When the fetch and the parse succeed and the transformer raises,
    [refresh] returns nothing with [success] false, and [last_updated]
    already holds the publication time of this call. The message is one of
    two: the attribute error of an absent identity or the index error of an
    identity without colon. *)
Theorem refresh_transform_failure (net : string -> fetched)
  (self : LiveParkingNorwich) (xml_data : string)
  (car_park_data : list RawCarPark) (ts : datetime) (e : exn) :
  _retrieve_xml_data net (url self) = Ok xml_data ->
  _parse_xml_data xml_data (namespace self) = Ok (car_park_data, ts) ->
  _transform_data_to_car_parks car_park_data = Raise e ->
  fst (refresh net self) = [] /\
  success (snd (refresh net self)) = Some false /\
  last_updated (snd (refresh net self)) = Some ts /\
  traceback (snd (refresh net self))
    = TbList (format_tb (Frame "refresh" 180 :: exn_tb e)) /\
  (error_message (snd (refresh net self))
     = Some "AttributeError: 'NoneType' object has no attribute 'split'" /\
   exn_tb e = [Frame "_transform_data_to_car_parks" 147]
   \/
   error_message (snd (refresh net self))
     = Some "IndexError: list index out of range" /\
   exn_tb e = [Frame "_transform_data_to_car_parks" 148]).
Proof.
  intros H1 H2 H3. unfold refresh.
  rewrite H1. cbn [line]. rewrite H2. cbn [line]. rewrite H3. cbn.
  repeat split.
  apply transform_raises in H3 as [->| ->]; [left|right]; now split.
Qed.

(** X16. From the document to the car parks. For a body that the network
    delivers and [fromstring] reads, [refresh] sets [success] to true exactly
    when the first publicationTime below the root has a text that [strptime]
    accepts and every situationRecord that the loops visit has the five
    children, numbers that [int] and [float] read, and an identity that is
    there and has a colon; it then returns one car park for each of these
    elements. *)
Theorem refresh_success_iff (net : string -> fetched)
  (self : LiveParkingNorwich) (uri xml_data : string) (root : element) :
  lookup "d2lm" (namespace self) = Some uri ->
  net (url self) = Fetched xml_data ->
  fromstring xml_data = Ok root ->
  (success (snd (refresh net self)) = Some true <->
   (exists e ts,
      hd_error (with_tag (qname uri "publicationTime") (descendants root))
        = Some e /\
      strptime (text e) DATE_FORMAT = Ok ts) /\
   Forall (fun r => exists raw, reads uri r raw /\ splittable raw)
     (visited_records uri root)) /\
  (success (snd (refresh net self)) = Some true ->
   List.length (fst (refresh net self))
   = List.length (visited_records uri root)).
Proof.
  intros d2lm Hnet Hroot.
  pose proof (retrieve_fetched _ _ _ Hnet) as Hr.
  assert (Hinv : success (snd (refresh net self)) = Some true ->
                 exists l ts out,
                   _parse_xml_data xml_data (namespace self) = Ok (l, ts) /\
                   _transform_data_to_car_parks l = Ok out /\
                   fst (refresh net self) = out).
  { unfold refresh. rewrite Hr. cbn [line].
    destruct (_parse_xml_data xml_data (namespace self)) as [[l ts]|e];
      cbn [line]; [|discriminate].
    destruct (_transform_data_to_car_parks l) as [out|e] eqn:Ht; cbn [line];
      [|discriminate].
    intros _. now exists l, ts, out. }
  split; [split|].
  - intros Hs. destruct (Hinv Hs) as (l & ts & out & Hp & Ht & _).
    apply (parse_ok_iff _ uri d2lm _ _ _ _ Hroot) in Hp as [(e & He & Hts) F].
    apply transform_inv in Ht as (Hl & _).
    split; [now exists e, ts|].
    clear - F Hl. induction F as [|r raw rs l Hr _ IH]; constructor.
    + exists raw. split; [assumption|]. now inversion Hl.
    + apply IH. now inversion Hl.
  - intros [(e & ts & He & Hts) Hall].
    assert (Hl : exists l, Forall2 (reads uri) (visited_records uri root) l /\
                           Forall splittable l).
    { clear - Hall. induction Hall as [|r rs (raw & Hr & Hs) _ (l & F & Hl)].
      - exists []. split; constructor.
      - exists (raw :: l). split; now constructor. }
    destruct Hl as (l & F & Hl).
    assert (Hp : _parse_xml_data xml_data (namespace self) = Ok (l, ts)).
    { apply (parse_ok_iff _ uri d2lm _ _ _ _ Hroot). split; [now exists e|].
      exact F. }
    destruct (transform_all "_transform_data_to_car_parks" 147 148 149 l Hl)
      as (out & Ht & _).
    now rewrite (refresh_ok _ _ _ _ _ _ Hr Hp Ht).
  - intros Hs. destruct (Hinv Hs) as (l & ts & out & Hp & Ht & ->).
    apply (parse_ok_iff _ uri d2lm _ _ _ _ Hroot) in Hp as [_ F].
    apply transform_inv in Ht as (_ & outs & -> & F').
    cbn [app]. rewrite <- (Forall2_length F'). symmetry.
    apply (Forall2_length F).
Qed.

End EndToEnd.

(* ================================================================== *)
(** * The further properties at concrete inputs *)

Lemma transform_success_inv_witness :
  let rt := demo_runtime (Ok demo_feed) in
  let l :=
    [ @mkRawCarPark rt (Some "Harford, Ipswich Road, Nor:CPN0015")
        (Some "enoughSpacesAvailable") 120 500 24%Z;
      @mkRawCarPark rt (Some "SOME NORW:CPX9:extra") None 90 80 112%Z ] in
  let out :=
    [ @mkCarPark rt "CPN0015" "Harford, Ipswich Road, Norwich"
        (Some "enoughSpacesAvailable") 120 380 500 24%Z;
      @mkCarPark rt "CPX9" "SOME NORWICH" None 90 (-10) 80 112%Z ] in
  Forall splittable l /\ Forall2 transformed l out.
Proof.
  cbv zeta.
  apply (@transform_success_inv (demo_runtime (Ok demo_feed))).
  reflexivity.
Defined.

Lemma transform_first_failure_witness :
  let rt := demo_runtime (Ok demo_feed) in
  let good :=
    @mkRawCarPark rt (Some "St Andrews:CPN0001") (Some "carParkFull") 1 2
      50%Z in
  let bad := @mkRawCarPark rt (Some "NoColonHere") None 1 2 50%Z in
  _transform_data_to_car_parks ([good] ++ bad :: [good])
    = _transform_data_to_car_parks [bad] /\
  _transform_data_to_car_parks [bad]
    = Raise (Exn "IndexError" "list index out of range"
               [Frame "_transform_data_to_car_parks" 148]).
Proof.
  cbv zeta.
  apply (@transform_first_failure (demo_runtime (Ok demo_feed))
           [@mkRawCarPark (demo_runtime (Ok demo_feed))
              (Some "St Andrews:CPN0001") (Some "carParkFull") 1 2 50%Z]
           [@mkRawCarPark (demo_runtime (Ok demo_feed))
              (Some "St Andrews:CPN0001") (Some "carParkFull") 1 2 50%Z]
           (@mkRawCarPark (demo_runtime (Ok demo_feed))
              (Some "NoColonHere") None 1 2 50%Z)).
  - repeat constructor. eexists. split; reflexivity.
  - intros (s & Hs & Hc). injection Hs as <-. discriminate Hc.
Defined.

Lemma transform_output_invariants_witness :
  let rt := demo_runtime (Ok demo_feed) in
  Forall
    (fun c : @CarPark rt =>
       colon_free (code c) = true /\
       colon_free (name c) = true /\
       repair_name (name c) = name c /\
       (cp_occupied_spaces c + remaining_spaces c = cp_total_capacity c)%Z)
    [ @mkCarPark rt "CPN0015" "Harford, Ipswich Road, Norwich"
        (Some "enoughSpacesAvailable") 120 380 500 24%Z;
      @mkCarPark rt "CPX9" "SOME NORWICH" None 90 (-10) 80 112%Z ].
Proof.
  cbv zeta.
  apply (@transform_output_invariants (demo_runtime (Ok demo_feed))
           [ @mkRawCarPark (demo_runtime (Ok demo_feed))
               (Some "Harford, Ipswich Road, Nor:CPN0015")
               (Some "enoughSpacesAvailable") 120 500 24%Z;
             @mkRawCarPark (demo_runtime (Ok demo_feed))
               (Some "SOME NORW:CPX9:extra") None 90 80 112%Z ]).
  reflexivity.
Defined.

(** The feed whose record has a carParkStatus without text. *)
Lemma parse_success_iff_witness :
  let rt := demo_runtime (Ok demo_feed_no_status_text) in
  let l := [@mkRawCarPark rt (Some "St Andrews:CPN0001") None 10 40 25%Z] in
  @_parse_xml_data rt demo_config "<d2LogicalModel/>"
    (@XML_NAMESPACE demo_config) = Ok (l, demo_pub) <->
  (exists e,
     hd_error (with_tag (qname demo_uri "publicationTime")
                 (descendants demo_feed_no_status_text)) = Some e /\
     @strptime rt (text e) (@DATE_FORMAT demo_config) = Ok demo_pub) /\
  Forall2 (@reads rt demo_uri)
    (visited_records demo_uri demo_feed_no_status_text) l.
Proof.
  cbv zeta.
  apply (@parse_success_iff (demo_runtime (Ok demo_feed_no_status_text))
           demo_config (@XML_NAMESPACE demo_config) demo_uri eq_refl
           "<d2LogicalModel/>" demo_feed_no_status_text).
  reflexivity.
Defined.

(** A document without publicationTime. *)
Lemma parse_publication_time_first_witness :
  let root := Element (qname demo_uri "d2LogicalModel") None [] in
  @_parse_xml_data (demo_runtime (Ok root)) demo_config "<d2LogicalModel/>"
    (@XML_NAMESPACE demo_config)
  = Raise (Exn "AttributeError" "'NoneType' object has no attribute 'text'"
             [Frame "_parse_xml_data" 111]).
Proof.
  cbv zeta.
  exact (@parse_publication_time_first
           (demo_runtime (Ok (Element (qname demo_uri "d2LogicalModel") None [])))
           demo_config (@XML_NAMESPACE demo_config) demo_uri eq_refl
           "<d2LogicalModel/>"
           (Element (qname demo_uri "d2LogicalModel") None []) eq_refl).
Defined.

(** An instance whose namespace mapping is empty. *)
Lemma prefix_missing_fails_witness :
  let rt := demo_runtime (Ok demo_feed) in
  let self :=
    @mkSelf rt "https://example.org/feed.xml" [] None None None TbNone in
  @_parse_xml_data rt demo_config "<d2LogicalModel/>" (namespace self)
    = Raise (Exn "SyntaxError" "prefix 'd2lm' not found in prefix map"
               [Frame "_parse_xml_data" 111; Frame "find" 405;
                Frame "iterfind" 384; Frame "prepare_descendant" 185;
                Frame "xpath_tokenizer" 87]) /\
  @refresh rt demo_config net_ok self
    = ([], mkSelf (url self) (namespace self) (last_updated self) (Some false)
             (Some "SyntaxError: prefix 'd2lm' not found in prefix map")
             (TbList ["refresh"; "_parse_xml_data"; "find"; "iterfind";
                      "prepare_descendant"; "xpath_tokenizer"])).
Proof.
  cbv zeta.
  apply (@prefix_missing_fails (demo_runtime (Ok demo_feed)) demo_config
           net_ok
           (@mkSelf (demo_runtime (Ok demo_feed))
              "https://example.org/feed.xml" [] None None None TbNone)
           "<d2LogicalModel/>" demo_feed); reflexivity.
Defined.

(** The feed whose record has the identity ["NoColonHere"]. *)
Lemma refresh_transform_failure_witness :
  let rt := demo_runtime (Ok demo_feed_no_colon) in
  let r := @refresh rt demo_config net_ok (@init rt demo_config) in
  let e :=
    Exn "IndexError" "list index out of range"
      [Frame "_transform_data_to_car_parks" 148] in
  fst r = [] /\
  success (snd r) = Some false /\
  last_updated (snd r) = Some demo_pub /\
  traceback (snd r) = TbList (@format_tb rt (Frame "refresh" 180 :: exn_tb e)) /\
  (error_message (snd r)
     = Some "AttributeError: 'NoneType' object has no attribute 'split'" /\
   exn_tb e = [Frame "_transform_data_to_car_parks" 147]
   \/
   error_message (snd r) = Some "IndexError: list index out of range" /\
   exn_tb e = [Frame "_transform_data_to_car_parks" 148]).
Proof.
  cbv zeta.
  apply (@refresh_transform_failure (demo_runtime (Ok demo_feed_no_colon))
           demo_config net_ok (@init _ demo_config) "<d2LogicalModel/>"
           [@mkRawCarPark (demo_runtime (Ok demo_feed_no_colon))
              (Some "NoColonHere") (Some "carParkFull") 1 2 50%Z]
           demo_pub); reflexivity.
Defined.

(** The feed of two records. *)
Lemma refresh_success_iff_witness :
  let rt := demo_runtime (Ok demo_feed) in
  let self := @init rt demo_config in
  (success (snd (@refresh rt demo_config net_ok self)) = Some true <->
   (exists e ts,
      hd_error (with_tag (qname demo_uri "publicationTime")
                  (descendants demo_feed)) = Some e /\
      @strptime rt (text e) (@DATE_FORMAT demo_config) = Ok ts) /\
   Forall (fun r => exists raw, @reads rt demo_uri r raw /\ splittable raw)
     (visited_records demo_uri demo_feed)) /\
  (success (snd (@refresh rt demo_config net_ok self)) = Some true ->
   List.length (fst (@refresh rt demo_config net_ok self))
   = List.length (visited_records demo_uri demo_feed)).
Proof.
  cbv zeta.
  apply (@refresh_success_iff (demo_runtime (Ok demo_feed)) demo_config
           net_ok (@init _ demo_config) demo_uri "<d2LogicalModel/>"
           demo_feed); reflexivity.
Defined.

(* ================================================================== *)
(** * Document order *)
















Section DocumentOrder.

Context {rt : Runtime}.
Variable uri : string.



End DocumentOrder.

Section ParseDocument.

Context {rt : Runtime} {cfg : Config}.


End ParseDocument.

